(** * Weather ETL pipeline (flows/weather_etl.py): model and properties

    The pipeline fetches a two-day forecast per configured city, archives the
    raw payload in MinIO, derives tomorrow's hourly rows and daily summary,
    inserts them into ClickHouse and broadcasts the summary to the Telegram
    subscribers of the bot.

    Every function of [weather_etl.py] is embedded as a function of the same
    name in a state-and-exception monad over a [World]: the world scripts
    what the clock and the external services answer, holds the object store
    and the two tables, and records the calls the program issues. *)

From Stdlib Require Import QArith Qround Ascii String.
From stdpp Require Import base decidable option list strings pretty gmap.

Open Scope nat_scope.

(** [lia] is asked to handle division and remainder by constants. *)
Ltac Zify.zify_post_hook ::= Z.to_euclidean_division_equations.

(** ** Exceptions and results *)

(** The exception classes the program can see.  [ExternalError] stands for
    what a library call raises on its own account (connection refused,
    timeout, S3Error, a ClickHouse server error); its argument names it. *)
Inductive exn :=
| ValueError
| IndexError
| TypeError
| KeyError
| OverflowError
| HTTPError (status : nat)
| ExternalError (what : string).

Inductive result (A : Type) :=
| Ok (a : A)
| Raise (e : exn).
Arguments Ok {A} a.
Arguments Raise {A} e.

Definition result_bind {A B} (r : result A) (k : A → result B) : result B :=
  match r with
  | Ok a => k a
  | Raise e => Raise e
  end.

Notation "x <~ r ; k" := (result_bind r (λ x, k))
  (at level 20, r at level 100, k at level 200, only parsing).
Notation "'_' <~ r ; k" := (result_bind r (λ _, k))
  (at level 20, r at level 100, k at level 200, only parsing).
Notation "' x <~ r ; k" := (result_bind r (λ x, k))
  (at level 20, x pattern, r at level 100, k at level 200, only parsing).

Definition is_Ok {A} (r : result A) : Prop := ∃ a, r = Ok a.

(** [l[i]] for a non-negative index [i]. *)
Definition getitem {A} (l : list A) (i : nat) : result A :=
  match l !! i with
  | Some a => Ok a
  | None => Raise IndexError
  end.

(** [l.index(x)]: position of the first element equal to [x]. *)
Fixpoint list_index `{EqDecision A} (x : A) (l : list A) : result nat :=
  match l with
  | [] => Raise ValueError
  | y :: l' => if decide (y = x) then Ok 0 else i <~ list_index x l' ; Ok (S i)
  end.

(** ** Dates and times (the [datetime] module) *)

Open Scope N_scope.

Record date := Date { year : N; month : N; day : N }.

Record datetime := DateTime {
  date_of : date;                (* .date() *)
  hour : N;
  minute : N;
  second : N;
  microsecond : N
}.

Global Instance date_eq_dec : EqDecision date.
Proof. solve_decision. Defined.
Global Instance datetime_eq_dec : EqDecision datetime.
Proof. solve_decision. Defined.

Definition MAXYEAR : N := 9999.

Definition is_leap (y : N) : bool :=
  (y mod 4 =? 0) && (negb (y mod 100 =? 0) || (y mod 400 =? 0)).

Definition days_in_month (y m : N) : N :=
  match m with
  | 2 => if is_leap y then 29 else 28
  | 4 | 6 | 9 | 11 => 30
  | _ => 31
  end.

(** The values a [date] / [datetime] object can hold. *)
Definition date_ok (d : date) : bool :=
  (1 <=? year d) && (year d <=? MAXYEAR) &&
  (1 <=? month d) && (month d <=? 12) &&
  (1 <=? day d) && (day d <=? days_in_month (year d) (month d)).

Definition time_ok (h mi s : N) : bool :=
  (h <? 24) && (mi <? 60) && (s <? 60).

Definition valid_date (d : date) : Prop := date_ok d = true.

Definition valid_datetime (t : datetime) : Prop :=
  valid_date (date_of t) ∧ time_ok (hour t) (minute t) (second t) = true
  ∧ microsecond t < 1000000.

(** [d + timedelta(days=1)]; leaving the range of years is an
    [OverflowError]. *)
Definition plus_one_day (d : date) : result date :=
  if day d <? days_in_month (year d) (month d)
  then Ok (Date (year d) (month d) (day d + 1))
  else if month d <? 12
  then Ok (Date (year d) (month d + 1) 1)
  else if year d <? MAXYEAR
  then Ok (Date (year d + 1) 1 1)
  else Raise OverflowError.

(** *** Formatting *)

Definition digit (n : N) : ascii := ascii_of_N (48 + n mod 10).

(** Zero-padded decimal fields, as [%m], [%d], [%H], [%M], [%S] (two
    digits) and [%Y] (four digits) print them. *)
Definition pad2 (n : N) : string :=
  String (digit (n / 10)) (String (digit n) "").

Definition pad4 (n : N) : string :=
  String (digit (n / 1000)) (String (digit (n / 100)) (pad2 n)).

(** [d.strftime('%Y-%m-%d')] *)
Definition strftime_Y_m_d (d : date) : string :=
  pad4 (year d) +:+ "-" +:+ pad2 (month d) +:+ "-" +:+ pad2 (day d).

(** [t.strftime('%Y%m%d_%H%M%S')] *)
Definition strftime_Ymd_HMS (t : datetime) : string :=
  pad4 (year (date_of t)) +:+ pad2 (month (date_of t)) +:+ pad2 (day (date_of t))
  +:+ "_" +:+ pad2 (hour t) +:+ pad2 (minute t) +:+ pad2 (second t).

(** *** Parsing *)

Definition digit_val (c : ascii) : option N :=
  let n := N_of_ascii c in
  if (48 <=? n) && (n <=? 57) then Some (n - 48) else None.

Fixpoint digits_val (acc : N) (cs : list ascii) : option N :=
  match cs with
  | [] => Some acc
  | c :: cs' =>
      match digit_val c with
      | Some v => digits_val (10 * acc + v) cs'
      | None => None
      end
  end.

Definition parse_field (cs : list ascii) : result N :=
  match digits_val 0 cs with
  | Some n => Ok n
  | None => Raise ValueError
  end.

Definition checked_date (y m d : N) : result date :=
  if date_ok (Date y m d) then Ok (Date y m d) else Raise ValueError.

Definition checked_datetime (dt : date) (h mi s : N) : result datetime :=
  if time_ok h mi s then Ok (DateTime dt h mi s 0) else Raise ValueError.

Definition dash : ascii := "-"%char.
Definition colon : ascii := ":"%char.

(** [datetime.fromisoformat(s)] on the forms a forecast series uses:
    [YYYY-MM-DD], then optionally one separator character and [HH],
    [HH:MM] or [HH:MM:SS].  Fractions of a second and UTC offsets, which
    the weather API never sends for these series, are not covered: the
    model rejects them. *)
Definition fromisoformat (s : string) : result datetime :=
  match list_ascii_of_string s with
  | y1 :: y2 :: y3 :: y4 :: c1 :: m1 :: m2 :: c2 :: d1 :: d2 :: rest =>
      if decide (c1 = dash ∧ c2 = dash) then
        y <~ parse_field [y1; y2; y3; y4] ;
        m <~ parse_field [m1; m2] ;
        d <~ parse_field [d1; d2] ;
        dt <~ checked_date y m d ;
        match rest with
        | [] => Ok (DateTime dt 0 0 0 0)
        | [_; h1; h2] =>
            h <~ parse_field [h1; h2] ;
            checked_datetime dt h 0 0
        | [_; h1; h2; c3; mi1; mi2] =>
            if decide (c3 = colon) then
              h <~ parse_field [h1; h2] ;
              mi <~ parse_field [mi1; mi2] ;
              checked_datetime dt h mi 0
            else Raise ValueError
        | [_; h1; h2; c3; mi1; mi2; c4; s1; s2] =>
            if decide (c3 = colon ∧ c4 = colon) then
              h <~ parse_field [h1; h2] ;
              mi <~ parse_field [mi1; mi2] ;
              sec <~ parse_field [s1; s2] ;
              checked_datetime dt h mi sec
            else Raise ValueError
        | _ => Raise ValueError
        end
      else Raise ValueError
  | _ => Raise ValueError
  end.

(** [datetime.strptime(s, '%Y-%m-%d').date()], on the zero-padded strings
    [strftime_Y_m_d] produces. *)
Definition strptime_Y_m_d (s : string) : result date :=
  match list_ascii_of_string s with
  | [y1; y2; y3; y4; c1; m1; m2; c2; d1; d2] =>
      if decide (c1 = dash ∧ c2 = dash) then
        y <~ parse_field [y1; y2; y3; y4] ;
        m <~ parse_field [m1; m2] ;
        d <~ parse_field [d1; d2] ;
        checked_date y m d
      else Raise ValueError
  | _ => Raise ValueError
  end.


Close Scope N_scope.

(** ** HTTP

    What one HTTP request comes back with: [requests] raises, or there
    is a response with a status code and a body.  [body = None]: the body
    does not decode ([response.json()] raises). *)
Inductive http_reply (B : Type) :=
| NoReply (e : exn)
| Reply (status : nat) (content : option B).
Arguments NoReply {B} e.
Arguments Reply {B} status content.

Record Response (B : Type) := { status_code : nat; body : option B }.
Arguments Build_Response {B} _ _.
Arguments status_code {B} _.
Arguments body {B} _.

(** ** Numbers

    The forecast series hold Python numbers, and the daily summary is
    computed from them with [+], [/ 2] and [round(_, 1)].  The development
    is parametric in the number type and in these three operations, so every
    statement holds for binary floating point as for any other arithmetic. *)
Class PyNumber (num : Type) := {
  num_add : num → num → num;      (* a + b *)
  num_half : num → num;           (* a / 2 *)
  num_round1 : num → num          (* round(a, 1) *)
}.

Section Pipeline.
Context {num : Type} `{!PyNumber num}.

(** ** Data model *)

(** One cell of a forecast series: JSON [null] ([None]) or a number. *)
Inductive cell := Null | Num (x : num).

(** [a + b] on two cells; [None] operands are a [TypeError]. *)
Definition cell_add (a b : cell) : result num :=
  match a, b with
  | Num x, Num y => Ok (num_add x y)
  | _, _ => Raise TypeError
  end.

(** [data['hourly']]: parallel arrays indexed against [time]. *)
Record Hourly := {
  h_time : list string;
  temperature_2m : list cell;
  precipitation : list cell;
  wind_speed_10m : list cell;
  wind_direction_10m : list cell
}.

(** [data['daily']] *)
Record Daily := {
  d_time : list string;
  temperature_2m_max : list cell;
  temperature_2m_min : list cell;
  precipitation_sum : list cell
}.

(** The decoded body of a forecast response. *)
Record Forecast := { hourly : Hourly; daily : Daily }.

(** The raw payload: the forecast after [data.update({'city': ...,
    'fetched_at': ...})].  [fetched_at] keeps the time read, not its
    ISO rendering. *)
Record Payload := {
  forecast : Forecast;
  city : string;
  fetched_at : datetime
}.

Record HourlyRecord := {
  hr_city : string;
  hr_date : date;
  hr_hour : datetime;
  hr_temperature : cell;
  hr_precipitation : cell;
  hr_wind_speed : cell;
  hr_wind_direction : cell
}.

Record DailySummary := {
  ds_city : string;
  ds_date : date;
  temp_min : cell;
  temp_max : cell;
  temp_avg : num;
  precipitation_total : cell;
  wind_max : Z
}.

Record Coords := { latitude : Q; longitude : Q }.

(** [getUpdates]: an update may carry a ['message']; [chat_id = None]
    stands for a message without ['chat']['id']. *)
Record Message := { chat_id : option Z }.
Record Update := { message : option Message }.
Record Updates := { ok : bool; updates_result : list Update }.

(** ** The outside world *)

(** Lines written by [print], with the values they interpolate. *)
Inductive log_line :=
| FoundUsers (n : nat)
| ErrorGettingChatIds (e : exn)
| FetchingDataFor (c : string)
| ApiErrorFor (c : string) (e : exn)
| MinioSaveError (e : exn)
| HourlyDataFor (c : string) (records : nat)
| NoDataForTomorrowIn (c : string) (e : exn)
| NoHourlyDataToLoad
| LoadedHourlyRecords (n : nat)
| BotTokenNotConfigured
| NoUsersFound
| NotificationsSent (successful failed : nat)
| Processing (c : string)
| ErrorProcessing (c : string) (e : exn)
| StartingEtlPipeline
| Cities (names : list string)
| PipelineCompleted (success_count total : nat)
| DataStored.

(** What the program does to the outside, in the order it does it. *)
Inductive event :=
| Print (line : log_line)
| Sleep (seconds : nat)
| WeatherGet (lat lon : Q)
| TelegramGetUpdates (bot_token : string)
| TelegramSendMessage (bot_token chat : string) (text : DailySummary)
| MinioBucketExists (bucket : string)
| MinioMakeBucket (bucket : string)
| MinioPutObject (bucket key : string)
| InsertHourly (row : HourlyRecord)
| InsertDaily (row : DailySummary).

Definition is_network_call (ev : event) : bool :=
  match ev with
  | Print _ | Sleep _ => false
  | _ => true
  end.

(** The world a run executes in.  The first group scripts the environment:
    the bot credential, the readings of the clock, and what each service
    answers to the successive requests it receives (a service whose script
    is used up refuses the connection; a store whose fault script is used
    up works).  The second group is the state of the two stores.  [trace]
    records the events issued so far, oldest first. *)
Record World := {
  TELEGRAM_BOT_TOKEN : option string;
  clock : datetime;
  clock_later : list datetime;
  weather_api : list (http_reply Forecast);
  telegram_getUpdates : list (http_reply Updates);
  telegram_sendMessage : list (http_reply unit);
  minio_faults : list (option exn);
  clickhouse_faults : list (option exn);
  minio : gmap string (gmap string Payload);
  weather_hourly : list HourlyRecord;
  weather_daily : list DailySummary;
  trace : list event
}.

(** Field updates. *)
Definition set_clock (t : datetime) (ts : list datetime) (w : World) : World :=
  {| TELEGRAM_BOT_TOKEN := TELEGRAM_BOT_TOKEN w; clock := t; clock_later := ts;
     weather_api := weather_api w; telegram_getUpdates := telegram_getUpdates w;
     telegram_sendMessage := telegram_sendMessage w; minio_faults := minio_faults w;
     clickhouse_faults := clickhouse_faults w; minio := minio w;
     weather_hourly := weather_hourly w; weather_daily := weather_daily w;
     trace := trace w |}.

Definition set_weather_api (rs : list (http_reply Forecast)) (w : World) : World :=
  {| TELEGRAM_BOT_TOKEN := TELEGRAM_BOT_TOKEN w; clock := clock w;
     clock_later := clock_later w;
     weather_api := rs; telegram_getUpdates := telegram_getUpdates w;
     telegram_sendMessage := telegram_sendMessage w; minio_faults := minio_faults w;
     clickhouse_faults := clickhouse_faults w; minio := minio w;
     weather_hourly := weather_hourly w; weather_daily := weather_daily w;
     trace := trace w |}.

Definition set_telegram_getUpdates (rs : list (http_reply Updates)) (w : World) : World :=
  {| TELEGRAM_BOT_TOKEN := TELEGRAM_BOT_TOKEN w; clock := clock w;
     clock_later := clock_later w;
     weather_api := weather_api w; telegram_getUpdates := rs;
     telegram_sendMessage := telegram_sendMessage w; minio_faults := minio_faults w;
     clickhouse_faults := clickhouse_faults w; minio := minio w;
     weather_hourly := weather_hourly w; weather_daily := weather_daily w;
     trace := trace w |}.

Definition set_telegram_sendMessage (rs : list (http_reply unit)) (w : World) : World :=
  {| TELEGRAM_BOT_TOKEN := TELEGRAM_BOT_TOKEN w; clock := clock w;
     clock_later := clock_later w;
     weather_api := weather_api w; telegram_getUpdates := telegram_getUpdates w;
     telegram_sendMessage := rs; minio_faults := minio_faults w;
     clickhouse_faults := clickhouse_faults w; minio := minio w;
     weather_hourly := weather_hourly w; weather_daily := weather_daily w;
     trace := trace w |}.

Definition set_minio_faults (fs : list (option exn)) (w : World) : World :=
  {| TELEGRAM_BOT_TOKEN := TELEGRAM_BOT_TOKEN w; clock := clock w;
     clock_later := clock_later w;
     weather_api := weather_api w; telegram_getUpdates := telegram_getUpdates w;
     telegram_sendMessage := telegram_sendMessage w; minio_faults := fs;
     clickhouse_faults := clickhouse_faults w; minio := minio w;
     weather_hourly := weather_hourly w; weather_daily := weather_daily w;
     trace := trace w |}.

Definition set_clickhouse_faults (fs : list (option exn)) (w : World) : World :=
  {| TELEGRAM_BOT_TOKEN := TELEGRAM_BOT_TOKEN w; clock := clock w;
     clock_later := clock_later w;
     weather_api := weather_api w; telegram_getUpdates := telegram_getUpdates w;
     telegram_sendMessage := telegram_sendMessage w; minio_faults := minio_faults w;
     clickhouse_faults := fs; minio := minio w;
     weather_hourly := weather_hourly w; weather_daily := weather_daily w;
     trace := trace w |}.

Definition set_minio (m : gmap string (gmap string Payload)) (w : World) : World :=
  {| TELEGRAM_BOT_TOKEN := TELEGRAM_BOT_TOKEN w; clock := clock w;
     clock_later := clock_later w;
     weather_api := weather_api w; telegram_getUpdates := telegram_getUpdates w;
     telegram_sendMessage := telegram_sendMessage w; minio_faults := minio_faults w;
     clickhouse_faults := clickhouse_faults w; minio := m;
     weather_hourly := weather_hourly w; weather_daily := weather_daily w;
     trace := trace w |}.

Definition set_weather_hourly (rows : list HourlyRecord) (w : World) : World :=
  {| TELEGRAM_BOT_TOKEN := TELEGRAM_BOT_TOKEN w; clock := clock w;
     clock_later := clock_later w;
     weather_api := weather_api w; telegram_getUpdates := telegram_getUpdates w;
     telegram_sendMessage := telegram_sendMessage w; minio_faults := minio_faults w;
     clickhouse_faults := clickhouse_faults w; minio := minio w;
     weather_hourly := rows; weather_daily := weather_daily w;
     trace := trace w |}.

Definition set_weather_daily (rows : list DailySummary) (w : World) : World :=
  {| TELEGRAM_BOT_TOKEN := TELEGRAM_BOT_TOKEN w; clock := clock w;
     clock_later := clock_later w;
     weather_api := weather_api w; telegram_getUpdates := telegram_getUpdates w;
     telegram_sendMessage := telegram_sendMessage w; minio_faults := minio_faults w;
     clickhouse_faults := clickhouse_faults w; minio := minio w;
     weather_hourly := weather_hourly w; weather_daily := rows;
     trace := trace w |}.

Definition set_trace (evs : list event) (w : World) : World :=
  {| TELEGRAM_BOT_TOKEN := TELEGRAM_BOT_TOKEN w; clock := clock w;
     clock_later := clock_later w;
     weather_api := weather_api w; telegram_getUpdates := telegram_getUpdates w;
     telegram_sendMessage := telegram_sendMessage w; minio_faults := minio_faults w;
     clickhouse_faults := clickhouse_faults w; minio := minio w;
     weather_hourly := weather_hourly w; weather_daily := weather_daily w;
     trace := evs |}.

(** ** The monad of the program: state and exceptions *)

Definition M (A : Type) : Type := World → result A * World.

Definition ret {A} (a : A) : M A := λ w, (Ok a, w).
Definition raise {A} (e : exn) : M A := λ w, (Raise e, w).

Definition bind {A B} (m : M A) (k : A → M B) : M B :=
  λ w, match m w with
       | (Ok a, w') => k a w'
       | (Raise e, w') => (Raise e, w')
       end.

Notation "x <- m ; k" := (bind m (λ x, k))
  (at level 20, m at level 100, k at level 200, only parsing).
Notation "'_' <- m ; k" := (bind m (λ _, k))
  (at level 20, m at level 100, k at level 200, only parsing).
Notation "' x <- m ; k" := (bind m (λ x, k))
  (at level 20, x pattern, m at level 100, k at level 200, only parsing).

(** A computation without effects, which may raise. *)
Definition lift {A} (r : result A) : M A := λ w, (r, w).

(** [try: body / except Exception as e: handler e] *)
Definition try_except {A} (body : M A) (handler : exn → M A) : M A :=
  λ w, match body w with
       | (Ok a, w') => (Ok a, w')
       | (Raise e, w') => handler e w'
       end.

Definition emit (ev : event) : M unit :=
  λ w, (Ok tt, set_trace (trace w ++ [ev]) w).

Definition print (line : log_line) : M unit := emit (Print line).

(** [os.getenv('TELEGRAM_BOT_TOKEN')] *)
Definition os_getenv_TELEGRAM_BOT_TOKEN : M (option string) :=
  λ w, (Ok (TELEGRAM_BOT_TOKEN w), w).

(** [datetime.now()]: the current reading; the clock then moves on to
    its next scripted reading, if there is one. *)
Definition datetime_now : M datetime :=
  λ w, (Ok (clock w),
        match clock_later w with
        | [] => w
        | t :: ts => set_clock t ts w
        end).

(** The world after one reading of the clock. *)
Definition tick (w : World) : World := (datetime_now w).2.

(** The world after some more events. *)
Definition logged (evs : list event) (w : World) : World :=
  set_trace (trace w ++ evs) w.

(** ** The services *)

(** The next answer of a scripted service. *)
Definition next_reply {B} (script : list (http_reply B))
  : result (Response B) * list (http_reply B) :=
  match script with
  | [] => (Raise (ExternalError "ConnectionError"), [])
  | NoReply e :: rest => (Raise e, rest)
  | Reply st b :: rest => (Ok {| status_code := st; body := b |}, rest)
  end.

Definition next_fault (script : list (option exn)) : result unit * list (option exn) :=
  match script with
  | [] => (Ok tt, [])
  | None :: rest => (Ok tt, rest)
  | Some e :: rest => (Raise e, rest)
  end.

(** [requests.get(WEATHER_API_URL, params=params, timeout=30)] *)
Definition requests_get_weather (lat lon : Q) : M (Response Forecast) :=
  _ <- emit (WeatherGet lat lon);
  λ w, let '(r, rest) := next_reply (weather_api w) in (r, set_weather_api rest w).

(** [requests.get(f"{TELEGRAM_API_URL}{bot_token}/getUpdates", timeout=10)] *)
Definition requests_get_getUpdates (bot_token : string) : M (Response Updates) :=
  _ <- emit (TelegramGetUpdates bot_token);
  λ w, let '(r, rest) := next_reply (telegram_getUpdates w) in
       (r, set_telegram_getUpdates rest w).

(** [requests.post(f"{TELEGRAM_API_URL}{bot_token}/sendMessage", json=payload,
    timeout=10)] *)
Definition requests_post_sendMessage (bot_token chat : string) (text : DailySummary)
  : M (Response unit) :=
  _ <- emit (TelegramSendMessage bot_token chat text);
  λ w, let '(r, rest) := next_reply (telegram_sendMessage w) in
       (r, set_telegram_sendMessage rest w).

(** [response.raise_for_status()]: 4xx and 5xx are an [HTTPError]. *)
Definition raise_for_status {B} (response : Response B) : M unit :=
  if (400 <=? status_code response) && (status_code response <? 600)
  then raise (HTTPError (status_code response))
  else ret tt.

(** [response.json()] *)
Definition response_json {B} (response : Response B) : M B :=
  match body response with
  | Some b => ret b
  | None => raise ValueError
  end.

(** One request to the object store: recorded, then refused or served. *)
Definition minio_request (ev : event) : M unit :=
  _ <- emit ev;
  λ w, let '(r, rest) := next_fault (minio_faults w) in (r, set_minio_faults rest w).

Definition bucket_exists (bucket_name : string) : M bool :=
  _ <- minio_request (MinioBucketExists bucket_name);
  λ w, (Ok (bool_decide (is_Some (minio w !! bucket_name))), w).

Definition make_bucket (bucket_name : string) : M unit :=
  _ <- minio_request (MinioMakeBucket bucket_name);
  λ w, match minio w !! bucket_name with
       | Some _ => (Raise (ExternalError "BucketAlreadyOwnedByYou"), w)
       | None => (Ok tt, set_minio (<[bucket_name := ∅]> (minio w)) w)
       end.

(** [client.put_object(bucket_name, filename, ...)]: the object stored
    under a key is replaced when the key is already in use. *)
Definition put_object (bucket_name filename : string) (data : Payload) : M unit :=
  _ <- minio_request (MinioPutObject bucket_name filename);
  λ w, match minio w !! bucket_name with
       | None => (Raise (ExternalError "NoSuchBucket"), w)
       | Some objects =>
           (Ok tt, set_minio (<[bucket_name := <[filename := data]> objects]> (minio w)) w)
       end.

(** One request to the analytical store. *)
Definition clickhouse_request (ev : event) : M unit :=
  _ <- emit ev;
  λ w, let '(r, rest) := next_fault (clickhouse_faults w) in
       (r, set_clickhouse_faults rest w).

(** [client.execute("INSERT INTO weather_hourly (...) VALUES", [record])] *)
Definition execute_insert_hourly (record : HourlyRecord) : M unit :=
  _ <- clickhouse_request (InsertHourly record);
  λ w, (Ok tt, set_weather_hourly (weather_hourly w ++ [record]) w).

(** [client.execute("INSERT INTO weather_daily (...) VALUES", [data])] *)
Definition execute_insert_daily (data : DailySummary) : M unit :=
  _ <- clickhouse_request (InsertDaily data);
  λ w, (Ok tt, set_weather_daily (weather_daily w ++ [data]) w).

(** ** Prefect *)

(** [@task(retries=..., retry_delay_seconds=...)]: a task run that fails is
    run again, after the delay, as long as retries are left; the exception
    of the last run is raised in the caller.  A plain [@task] has no
    retries. *)
Fixpoint task {A} (retries retry_delay_seconds : nat) (fn : M A) : M A :=
  λ w, match fn w with
       | (Ok a, w') => (Ok a, w')
       | (Raise e, w') =>
           match retries with
           | 0 => (Raise e, w')
           | S n => (_ <- emit (Sleep retry_delay_seconds);
                     task n retry_delay_seconds fn) w'
           end
       end.

(** ** The program *)

Definition CITIES : list (string * Coords) :=
  [ ("Moscow", {| latitude := 557558 # 10000; longitude := 376173 # 10000 |});
    ("Samara", {| latitude := 531959 # 10000; longitude := 501002 # 10000 |}) ].

(** The set comprehension of [get_chat_ids]:
    [{str(update['message']['chat']['id']) for update in data['result']
      if 'message' in update}]. *)
Fixpoint chat_id_set (updates : list Update) : result (gset string) :=
  match updates with
  | [] => Ok ∅
  | update :: rest =>
      match message update with
      | None => chat_id_set rest
      | Some msg =>
          match chat_id msg with
          | None => Raise KeyError
          | Some id => ids <~ chat_id_set rest ; Ok ({[ pretty id ]} ∪ ids)
          end
      end
  end.

Definition get_chat_ids (bot_token : string) : M (list string) :=
  try_except
    (response <- requests_get_getUpdates bot_token;
     _ <- raise_for_status response;
     data <- response_json response;
     if negb (ok data) then ret []
     else
       chat_ids <- lift (chat_id_set (updates_result data));
       _ <- print (FoundUsers (size chat_ids));
       ret (elements chat_ids))
    (λ e, _ <- print (ErrorGettingChatIds e); ret []).

Definition fetch_weather_data_fn (city : string) (latitude longitude : Q) : M Payload :=
  _ <- print (FetchingDataFor city);
  try_except
    (response <- requests_get_weather latitude longitude;
     _ <- raise_for_status response;
     data <- response_json response;
     now <- datetime_now;
     ret {| forecast := data; city := city; fetched_at := now |})
    (λ e, _ <- print (ApiErrorFor city e); raise e).

Definition fetch_weather_data (city : string) (latitude longitude : Q) : M Payload :=
  task 3 10 (fetch_weather_data_fn city latitude longitude).

Definition archive_key (city : string) (now : datetime) : string :=
  city +:+ "_" +:+ strftime_Ymd_HMS now +:+ ".json".

Definition save_raw_data_to_minio (data : Payload) (city : string) : M string :=
  task 0 0
    (let bucket_name := "weather-raw" in
     exists_ <- bucket_exists bucket_name;
     _ <- (if negb exists_ then make_bucket bucket_name else ret tt);
     now <- datetime_now;
     let filename := archive_key city now in
     try_except
       (_ <- put_object bucket_name filename data;
        ret filename)
       (λ e, _ <- print (MinioSaveError e); raise e)).

(** A list comprehension with a condition, whose element or condition may
    raise. *)
Fixpoint comprehension {A B} (f : A → result (option B)) (l : list A) : result (list B) :=
  match l with
  | [] => Ok []
  | a :: l' =>
      o <~ f a ;
      rest <~ comprehension f l' ;
      Ok (match o with Some b => b :: rest | None => rest end)
  end.

(** The element of the comprehension of [transform_hourly_data] at index
    [i]: [None] when the condition fails. *)
Definition hourly_record (city : string) (hourly_data : Hourly) (tomorrow : date)
    (i : nat) : result (option HourlyRecord) :=
  t <~ getitem (h_time hourly_data) i ;
  cond <~ fromisoformat t ;
  if decide (date_of cond = tomorrow) then
    t_date <~ getitem (h_time hourly_data) i ;
    d <~ fromisoformat t_date ;
    t_hour <~ getitem (h_time hourly_data) i ;
    h <~ fromisoformat t_hour ;
    temperature <~ getitem (temperature_2m hourly_data) i ;
    precip <~ getitem (precipitation hourly_data) i ;
    wind_speed <~ getitem (wind_speed_10m hourly_data) i ;
    wind_direction <~ getitem (wind_direction_10m hourly_data) i ;
    Ok (Some {| hr_city := city; hr_date := date_of d; hr_hour := h;
                hr_temperature := temperature; hr_precipitation := precip;
                hr_wind_speed := wind_speed; hr_wind_direction := wind_direction |})
  else Ok None.

Definition transform_hourly_data (data : Payload) : M (list HourlyRecord) :=
  task 0 0
    (let city := city data in
     let hourly_data := hourly (forecast data) in
     now <- datetime_now;
     tomorrow <- lift (plus_one_day (date_of now));
     transformed <- lift (comprehension (hourly_record city hourly_data tomorrow)
                            (seq 0 (length (h_time hourly_data))));
     _ <- print (HourlyDataFor city (length transformed));
     ret transformed).

(** [try: body / except (ValueError, IndexError) as e: handler e] *)
Definition try_except_ValueError_IndexError {A} (body : M A) (handler : exn → M A) : M A :=
  try_except body
    (λ e, match e with
          | ValueError | IndexError => handler e
          | _ => raise e
          end).

Definition transform_daily_data (data : Payload) : M DailySummary :=
  task 0 0
    (let city := city data in
     let daily_data := daily (forecast data) in
     now <- datetime_now;
     tomorrow_date <- lift (plus_one_day (date_of now));
     let tomorrow := strftime_Y_m_d tomorrow_date in
     try_except_ValueError_IndexError
       (tomorrow_index <- lift (list_index tomorrow (d_time daily_data));
        temp_min <- lift (getitem (temperature_2m_min daily_data) tomorrow_index);
        temp_max <- lift (getitem (temperature_2m_max daily_data) tomorrow_index);
        total <- lift (cell_add temp_min temp_max);
        let temp_avg := num_round1 (num_half total) in
        d <- lift (strptime_Y_m_d tomorrow);
        precipitation_total <- lift (getitem (precipitation_sum daily_data) tomorrow_index);
        ret {| ds_city := city; ds_date := d;
               temp_min := temp_min; temp_max := temp_max; temp_avg := temp_avg;
               precipitation_total := precipitation_total; wind_max := 0 |})
       (λ e, _ <- print (NoDataForTomorrowIn city e); raise e)).

(** The [for record in data] loop of [load_hourly_data_to_clickhouse]. *)
Fixpoint insert_each (data : list HourlyRecord) : M unit :=
  match data with
  | [] => ret tt
  | record :: rest => _ <- execute_insert_hourly record; insert_each rest
  end.

Definition load_hourly_data_to_clickhouse (data : list HourlyRecord) : M unit :=
  task 0 0
    (match data with
     | [] => print NoHourlyDataToLoad
     | _ =>
         _ <- insert_each data;
         print (LoadedHourlyRecords (length data))
     end).

Definition load_daily_data_to_clickhouse (data : DailySummary) : M unit :=
  task 0 0 (execute_insert_daily data).

(** The [for chat_id in chat_ids] loop of [send_telegram_notifications],
    carrying the two counters. *)
Fixpoint send_each (bot_token : string) (text : DailySummary) (chat_ids : list string)
    (successful failed : nat) : M (nat * nat) :=
  match chat_ids with
  | [] => ret (successful, failed)
  | chat :: rest =>
      ' (s, f) <- try_except
                    (response <- requests_post_sendMessage bot_token chat text;
                     if status_code response =? 200
                     then ret (S successful, failed)
                     else ret (successful, S failed))
                    (λ _, ret (successful, S failed));
      send_each bot_token text rest s f
  end.

(** [not bot_token]: unset, or set to the empty string. *)
Definition token_missing (bot_token : option string) : bool :=
  match bot_token with
  | None => true
  | Some t => bool_decide (t = "")
  end.

Definition send_telegram_notifications (daily_data : DailySummary) : M unit :=
  task 0 0
    (bot_token <- os_getenv_TELEGRAM_BOT_TOKEN;
     if token_missing bot_token then print BotTokenNotConfigured
     else
       let bot_token := default "" bot_token in
       chat_ids <- get_chat_ids bot_token;
       match chat_ids with
       | [] => print NoUsersFound
       | _ =>
           ' (successful, failed) <- send_each bot_token daily_data chat_ids 0 0;
           print (NotificationsSent successful failed)
       end).

(** The [try] block of [process_city]. *)
Definition process_city_body (city : string) (coords : Coords) : M bool :=
  _ <- print (Processing city);
  raw_data <- fetch_weather_data city (latitude coords) (longitude coords);
  _ <- save_raw_data_to_minio raw_data city;
  hourly_data <- transform_hourly_data raw_data;
  daily_data <- transform_daily_data raw_data;
  _ <- load_hourly_data_to_clickhouse hourly_data;
  _ <- load_daily_data_to_clickhouse daily_data;
  _ <- send_telegram_notifications daily_data;
  ret true.

Definition process_city (city : string) (coords : Coords) : M bool :=
  try_except (process_city_body city coords)
    (λ e, _ <- print (ErrorProcessing city e); ret false).

(** The [for city, coords in CITIES.items()] loop of [weather_etl_flow]. *)
Fixpoint for_cities (cities : list (string * Coords)) (success_count : nat) : M nat :=
  match cities with
  | [] => ret success_count
  | (city, coords) :: rest =>
      processed <- process_city city coords;
      for_cities rest (if processed then S success_count else success_count)
  end.

Definition weather_etl_flow : M unit :=
  _ <- print StartingEtlPipeline;
  _ <- print (Cities (CITIES.*1));
  success_count <- for_cities CITIES 0;
  _ <- print (PipelineCompleted success_count (length CITIES));
  print DataStored.

(** ** Vocabulary of the statements *)

(** A reading the clock of a running process can give: a [datetime]
    value, of a year that ['%Y'] prints with four digits on every
    platform. *)
Definition clock_ok (t : datetime) : Prop :=
  valid_datetime t ∧ (1000 ≤ year (date_of t))%N.

(** A well-formed hourly series: every time string reads as an ISO
    date-time, and the four value arrays run parallel to [time]. *)
Definition well_formed_hourly (h : Hourly) : Prop :=
  Forall (λ t, is_Ok (fromisoformat t)) (h_time h)
  ∧ length (temperature_2m h) = length (h_time h)
  ∧ length (precipitation h) = length (h_time h)
  ∧ length (wind_speed_10m h) = length (h_time h)
  ∧ length (wind_direction_10m h) = length (h_time h).

(** The entries of the hourly time series, in series order: the time
    string with the four values at the same index. *)
Definition hourly_entries (h : Hourly) : list (string * cell * cell * cell * cell) :=
  zip (zip (zip (zip (h_time h) (temperature_2m h)) (precipitation h))
         (wind_speed_10m h)) (wind_direction_10m h).

Definition entry_time (e : string * cell * cell * cell * cell) : string := e.1.1.1.1.

(** The date component of a time string. *)
Definition date_component (t : string) : option date :=
  match fromisoformat t with
  | Ok dt => Some (date_of dt)
  | Raise _ => None
  end.

(** The entries of the series whose date component is [d]. *)
Definition entries_of_date (d : date) (h : Hourly)
  : list (string * cell * cell * cell * cell) :=
  filter (λ e, date_component (entry_time e) = Some d) (hourly_entries h).

(** The record an entry is remapped to. *)
Definition remap (city : string) (e : string * cell * cell * cell * cell)
  : option HourlyRecord :=
  let '(t, temperature, precip, wind_speed, wind_direction) := e in
  match fromisoformat t with
  | Ok dt => Some {| hr_city := city; hr_date := date_of dt; hr_hour := dt;
                     hr_temperature := temperature; hr_precipitation := precip;
                     hr_wind_speed := wind_speed; hr_wind_direction := wind_direction |}
  | Raise _ => None
  end.

(** The store takes the next [n] requests. *)
Definition accepts (n : nat) (faults : list (option exn)) : Prop :=
  Forall (λ f, f = None) (take n faults).



(** The requests to the weather API among some events. *)
Definition is_weather_get (ev : event) : bool :=
  match ev with
  | WeatherGet _ _ => true
  | _ => false
  end.

Definition weather_requests (evs : list event) : nat :=
  length (filter (λ ev, is_weather_get ev = true) evs).

(** The exception the next request to a scripted service ends in, if it
    fails: the transport fails, the status is 4xx or 5xx, or the body does
    not decode. *)
Definition reply_error {B} (script : list (http_reply B)) : option exn :=
  match script with
  | [] => Some (ExternalError "ConnectionError")
  | NoReply e :: _ => Some e
  | Reply st b :: _ =>
      if (400 <=? st) && (st <? 600) then Some (HTTPError st)
      else match b with
           | None => Some ValueError
           | Some _ => None
           end
  end.

(** What one failed run of the fetch task leaves in the trace. *)
Definition failed_attempt (city : string) (lat lon : Q) (e : exn) : list event :=
  [Print (FetchingDataFor city); WeatherGet lat lon; Print (ApiErrorFor city e)].

(** An update whose message, if it has one, carries a chat id. *)
Definition update_ok (u : Update) : Prop :=
  ∀ m, message u = Some m → is_Some (chat_id m).

(** Subscriber resolution fails: the HTTP call fails, the status is an
    error status, the response is malformed, or its [ok] flag is false. *)
Definition resolution_fails (w : World) : Prop :=
  match telegram_getUpdates w with
  | [] | NoReply _ :: _ => True
  | Reply st None :: _ => True
  | Reply st (Some data) :: _ =>
      400 ≤ st < 600 ∨ ok data = false ∨ ¬ Forall update_ok (updates_result data)
  end.


(** The objects archived so far, by key. *)
Definition archive (w : World) : gmap string Payload :=
  default ∅ (minio w !! "weather-raw").

End Pipeline.

(** ** More vocabulary: what a computation leaves alone, and what it has done *)

Section Frames.
Context {num : Type} `{!PyNumber num}.
Local Abbreviation World := (@World num).
Local Abbreviation M := (@M num).
Local Abbreviation event := (@event num).
Local Abbreviation Payload := (@Payload num).
Local Abbreviation Hourly := (@Hourly num).
Local Abbreviation HourlyRecord := (@HourlyRecord num).
Local Abbreviation DailySummary := (@DailySummary num).

(** Whatever [m] returns or raises, the world it leaves is related by [R]
    to the world it started in. *)
Definition preserves {A} (R : World → World → Prop) (m : M A) : Prop :=
  ∀ w r w', m w = (r, w') → R w w'.

(** The part [f] of the world is left as it was. *)
Definition kept {X} (f : World → X) : World → World → Prop :=
  λ w w', f w' = f w.

(** The trace has only grown, by events that satisfy [P]. *)
Definition emits (P : event → Prop) : World → World → Prop :=
  λ w w', ∃ evs, trace w' = trace w ++ evs ∧ Forall P evs.

(** The events of a fetch: log lines, the retry delay, requests to the
    weather API. *)
Definition fetch_event (ev : event) : Prop :=
  match ev with
  | Print _ | Sleep _ | WeatherGet _ _ => True
  | _ => False
  end.

Definition is_print (ev : event) : Prop :=
  match ev with
  | Print _ => True
  | _ => False
  end.

(** What the failed runs [errs] of the fetch task, each followed by the
    retry delay, leave in the trace. *)
Definition retried (city : string) (lat lon : Q) (errs : list exn) : list event :=
  errs ≫= λ e, failed_attempt city lat lon e ++ [Sleep 10].

(** A [sendMessage] request that is answered with status 200. *)
Definition delivered (r : http_reply unit) : bool :=
  match r with
  | Reply st _ => st =? 200
  | NoReply _ => false
  end.

(** The stores, and the scripts of every service but the weather API. *)
Definition beside_weather_api (w : World) :=
  (minio w, weather_hourly w, weather_daily w, telegram_getUpdates w,
   telegram_sendMessage w, minio_faults w, clickhouse_faults w, TELEGRAM_BOT_TOKEN w).

(** A record comes from index [i] of the series. *)
Definition from_index (h : Hourly) (i : nat) (r : HourlyRecord) : Prop :=
  ∃ t, h_time h !! i = Some t
       ∧ fromisoformat t = Ok (hr_hour r)
       ∧ hr_date r = date_of (hr_hour r)
       ∧ temperature_2m h !! i = Some (hr_temperature r)
       ∧ precipitation h !! i = Some (hr_precipitation r)
       ∧ wind_speed_10m h !! i = Some (hr_wind_speed r)
       ∧ wind_direction_10m h !! i = Some (hr_wind_direction r).

(** The readings of a series that all parse, none of them on [tm]. *)
Definition none_on (tm : date) (times : list string) : Prop :=
  Forall (λ t, ∃ dt, fromisoformat t = Ok dt ∧ date_of dt ≠ tm) times.

(** One of the four values is missing at index [i]. *)
Definition value_missing (h : Hourly) (i : nat) : Prop :=
  temperature_2m h !! i = None ∨ precipitation h !! i = None
  ∨ wind_speed_10m h !! i = None ∨ wind_direction_10m h !! i = None.

(** The two tables. *)
Definition tables (w : World) := (weather_hourly w, weather_daily w).

(** Everything but the clock and the trace. *)
Definition beside_clock (w : World) :=
  (TELEGRAM_BOT_TOKEN w, weather_api w, telegram_getUpdates w, telegram_sendMessage w,
   minio_faults w, clickhouse_faults w, minio w, weather_hourly w, weather_daily w).

(** Everything but the two Telegram scripts and the trace. *)
Definition beside_telegram (w : World) :=
  (TELEGRAM_BOT_TOKEN w, clock w, clock_later w, weather_api w,
   minio_faults w, clickhouse_faults w, minio w, weather_hourly w, weather_daily w).

Definition telegram_event (ev : event) : Prop :=
  match ev with
  | Print _ | TelegramGetUpdates _ | TelegramSendMessage _ _ _ => True
  | _ => False
  end.

(** Nothing stored has gone: the rows of both tables are still there, in
    order, before any new ones, and every archived key still has an
    object. *)
Definition never_deletes : World → World → Prop :=
  λ w w', weather_hourly w `prefix_of` weather_hourly w'
          ∧ weather_daily w `prefix_of` weather_daily w'
          ∧ dom (archive w) ⊆ dom (archive w').



End Frames.

(** ** A number type to run the model on

    Exact decimal arithmetic on rationals: sums and halves are exact and
    [round(_, 1)] rounds to the nearest tenth, ties to the even one.  It is
    used where the model is run on concrete forecasts. *)

Definition Q_round1 (q : Q) : Q :=
  let t := Qred (q * 10) in
  let fl := Qfloor t in
  let r := match Qcompare (Qred (2 * (t - inject_Z fl))) 1 with
           | Lt => fl
           | Gt => (fl + 1)%Z
           | Eq => if Z.even fl then fl else (fl + 1)%Z
           end in
  Qred (inject_Z r / 10).

Global Instance Q_number : PyNumber Q := {|
  num_add a b := Qred (a + b);
  num_half a := Qred (a / 2);
  num_round1 := Q_round1
|}.

(** A run on 3 November 2025, shortly after noon. *)
Definition noon : datetime := DateTime (Date 2025 11 3) 12 0 7 250000.

Definition sample_hourly : @Hourly Q := {|
  h_time := ["2025-11-03T22:00"; "2025-11-03T23:00"; "2025-11-04T00:00"; "2025-11-04T01:00"];
  temperature_2m := [Num (31 # 10); Num (28 # 10); Num (25 # 10); Num (21 # 10)];
  precipitation := [Num 0%Q; Num 0%Q; Num (2 # 10); Null];
  wind_speed_10m := [Num (104 # 10); Num (98 # 10); Num (91 # 10); Num (87 # 10)];
  wind_direction_10m := [Num 200%Q; Num 205%Q; Num 210%Q; Num 212%Q]
|}.

Definition sample_daily : @Daily Q := {|
  d_time := ["2025-11-03"; "2025-11-04"];
  temperature_2m_max := [Num (52 # 10); Num (47 # 10)];
  temperature_2m_min := [Num (15 # 10); Num (-6 # 10)];
  precipitation_sum := [Num 0%Q; Num (14 # 10)]
|}.

Definition sample_forecast : @Forecast Q :=
  {| hourly := sample_hourly; daily := sample_daily |}.

Definition sample_payload : @Payload Q :=
  {| forecast := sample_forecast; city := "Samara"; fetched_at := noon |}.

(** A world with no credential, no scripted answers, empty stores. *)
Definition quiet_world : @World Q := {|
  TELEGRAM_BOT_TOKEN := None;
  clock := noon;
  clock_later := [];
  weather_api := [];
  telegram_getUpdates := [];
  telegram_sendMessage := [];
  minio_faults := [];
  clickhouse_faults := [];
  minio := ∅;
  weather_hourly := [];
  weather_daily := [];
  trace := []
|}.

Definition some_updates : Updates := {|
  ok := true;
  updates_result := [ {| message := Some {| chat_id := Some 42%Z |} |};
                      {| message := None |};
                      {| message := Some {| chat_id := Some 42%Z |} |};
                      {| message := Some {| chat_id := Some (-7)%Z |} |} ]
|}.

(** Both cities get a forecast; the bot has two subscribers. *)
Definition sunny_world : @World Q :=
  set_weather_api [Reply 200 (Some sample_forecast); Reply 200 (Some sample_forecast)]
    (set_telegram_getUpdates [Reply 200 (Some some_updates); Reply 200 (Some some_updates)]
       (set_telegram_sendMessage [Reply 200 None; Reply 403 None; Reply 200 None; NoReply (ExternalError "Timeout")]
          {| TELEGRAM_BOT_TOKEN := Some "123:abc";
             clock := noon; clock_later := [];
             weather_api := []; telegram_getUpdates := []; telegram_sendMessage := [];
             minio_faults := []; clickhouse_faults := [];
             minio := ∅; weather_hourly := []; weather_daily := []; trace := [] |})).


(** The summary of [sample_payload] for 4 November. *)
Definition sample_summary : @DailySummary Q := {|
  ds_city := "Samara";
  ds_date := Date 2025 11 4;
  temp_min := Num (-6 # 10);
  temp_max := Num (47 # 10);
  temp_avg := 2%Q;
  precipitation_total := Num (14 # 10);
  wind_max := 0
|}.

(** A forecast whose minimum temperature for tomorrow is [null]. *)
Definition gap_payload : @Payload Q := {|
  forecast := {| hourly := sample_hourly;
                 daily := {| d_time := ["2025-11-03"; "2025-11-04"];
                             temperature_2m_max := [Num (52 # 10); Num (47 # 10)];
                             temperature_2m_min := [Num (15 # 10); Null];
                             precipitation_sum := [Num 0%Q; Num (14 # 10)] |} |};
  city := "Samara";
  fetched_at := noon
|}.

(** A forecast that stops today. *)
Definition stale_payload : @Payload Q := {|
  forecast := {| hourly := sample_hourly;
                 daily := {| d_time := ["2025-11-02"; "2025-11-03"];
                             temperature_2m_max := [Num (52 # 10); Num (47 # 10)];
                             temperature_2m_min := [Num (15 # 10); Num (-6 # 10)];
                             precipitation_sum := [Num 0%Q; Num (14 # 10)] |} |};
  city := "Samara";
  fetched_at := noon
|}.

(** The two rows [sample_payload] gives for 4 November. *)
Definition sample_rows : list (@HourlyRecord Q) :=
  [ {| hr_city := "Samara"; hr_date := Date 2025 11 4;
       hr_hour := DateTime (Date 2025 11 4) 0 0 0 0;
       hr_temperature := Num (25 # 10); hr_precipitation := Num (2 # 10);
       hr_wind_speed := Num (91 # 10); hr_wind_direction := Num 210%Q |};
    {| hr_city := "Samara"; hr_date := Date 2025 11 4;
       hr_hour := DateTime (Date 2025 11 4) 1 0 0 0;
       hr_temperature := Num (21 # 10); hr_precipitation := Null;
       hr_wind_speed := Num (87 # 10); hr_wind_direction := Num 212%Q |} ].

(** The weather API answers 500 three times, then 200. *)
Definition flaky_world : @World Q :=
  set_weather_api [Reply 500 None; Reply 500 None; Reply 500 None;
                   Reply 200 (Some sample_forecast)] quiet_world.

(** The weather API answers 500 to the four requests for the first city
    and 200 to the request for the second. *)
Definition outage_world : @World Q :=
  set_weather_api [Reply 500 None; Reply 500 None; Reply 500 None; Reply 500 None;
                   Reply 200 (Some sample_forecast)] quiet_world.

(** The credential is set and nobody has written to the bot. *)
Definition lonely_world : @World Q :=
  set_telegram_getUpdates [Reply 200 (Some {| ok := true; updates_result := [] |})]
    {| TELEGRAM_BOT_TOKEN := Some "123:abc";
       clock := noon; clock_later := [];
       weather_api := []; telegram_getUpdates := []; telegram_sendMessage := [];
       minio_faults := []; clickhouse_faults := [];
       minio := ∅; weather_hourly := []; weather_daily := []; trace := [] |}.

(** The analytical store refuses the second insert it receives. *)
Definition refusing_world : @World Q :=
  set_clickhouse_faults [None; Some (ExternalError "ServerException")] quiet_world.



(** The day after [noon]. *)
Definition next_day : datetime := DateTime (Date 2025 11 4) 12 0 7 250000.

Definition next_day_world : @World Q := set_clock next_day [] quiet_world.

(** A forecast whose hourly precipitation array is one entry short. *)
Definition short_payload : @Payload Q := {|
  forecast := {| hourly := {| h_time := h_time sample_hourly;
                              temperature_2m := temperature_2m sample_hourly;
                              precipitation := [Num 0%Q; Num 0%Q; Num (2 # 10)];
                              wind_speed_10m := wind_speed_10m sample_hourly;
                              wind_direction_10m := wind_direction_10m sample_hourly |};
                 daily := sample_daily |};
  city := "Samara";
  fetched_at := noon
|}.

(** A forecast whose daily precipitation array is one entry short. *)
Definition short_daily_payload : @Payload Q := {|
  forecast := {| hourly := sample_hourly;
                 daily := {| d_time := ["2025-11-03"; "2025-11-04"];
                             temperature_2m_max := [Num (52 # 10); Num (47 # 10)];
                             temperature_2m_min := [Num (15 # 10); Num (-6 # 10)];
                             precipitation_sum := [Num 0%Q] |} |};
  city := "Samara";
  fetched_at := noon
|}.


(** The world [sunny_world] after the subscribers have been resolved. *)
Definition resolved_world : @World Q :=
  logged [TelegramGetUpdates "123:abc"; Print (FoundUsers 2)]
    (set_telegram_getUpdates [Reply 200 (Some some_updates)] sunny_world).

(** The world a run in [sunny_world] leaves, with the weather API
    answering one more request: the stores hold the data of that run. *)
Definition second_run_world : @World Q :=
  set_weather_api [Reply 200 (Some sample_forecast); Reply 500 None]
    (weather_etl_flow sunny_world).2.

(** * The script that prepares the analytical store *)

Module CreateTables.

Inductive column_type := String_t | Date_t | DateTime_t | Float32_t | Int32_t.

(** A column: [default_now] is [DEFAULT now()]. *)
Record column := { col_name : string; col_type : column_type; default_now : bool }.

(** [(columns) ENGINE = MergeTree() PARTITION BY ... ORDER BY (...)] *)
Record table_def := {
  columns : list column;
  partition_by : string;
  order_by : list string
}.

Inductive statement :=
| CreateDatabaseIfNotExists (db : string)
| CreateTableIfNotExists (db table : string) (def : table_def).

Inductive event :=
| Executed (st : statement)
| Printed (line : string).

(** The server the script talks to: its databases and tables, what it
    does with the successive statements it receives ([Some e]: it refuses
    the statement with [e]), and the events so far. *)
Record Server := {
  databases : gset string;
  tables : gmap (string * string) table_def;
  faults : list (option exn);
  trace : list event
}.

Definition M (A : Type) : Type := Server → result A * Server.

Definition bind {A B} (m : M A) (k : A → M B) : M B :=
  λ s, match m s with
       | (Ok a, s') => k a s'
       | (Raise e, s') => (Raise e, s')
       end.

Local Notation "'_' <- m ; k" := (bind m (λ _, k))
  (at level 20, m at level 100, k at level 200, only parsing).

Definition print (line : string) : M unit :=
  λ s, (Ok tt, {| databases := databases s; tables := tables s; faults := faults s;
                  trace := trace s ++ [Printed line] |}).

(** What a statement the server accepts does to its databases and tables:
    [IF NOT EXISTS] leaves an object that is there as it is. *)
Definition run_statement (st : statement) (dbs : gset string)
    (tbls : gmap (string * string) table_def)
  : result (gset string * gmap (string * string) table_def) :=
  match st with
  | CreateDatabaseIfNotExists db => Ok ({[ db ]} ∪ dbs, tbls)
  | CreateTableIfNotExists db table def =>
      if decide (db ∈ dbs) then
        Ok (dbs, match tbls !! (db, table) with
                 | Some _ => tbls
                 | None => <[(db, table) := def]> tbls
                 end)
      else Raise (ExternalError "UNKNOWN_DATABASE")
  end.

(** [client.execute(statement)] *)
Definition execute (st : statement) : M unit :=
  λ s,
    let evs := trace s ++ [Executed st] in
    match next_fault (faults s) with
    | (Raise e, rest) =>
        (Raise e, {| databases := databases s; tables := tables s; faults := rest;
                     trace := evs |})
    | (Ok _, rest) =>
        match run_statement st (databases s) (tables s) with
        | Ok (dbs, tbls) =>
            (Ok tt, {| databases := dbs; tables := tbls; faults := rest; trace := evs |})
        | Raise e =>
            (Raise e, {| databases := databases s; tables := tables s; faults := rest;
                         trace := evs |})
        end
    end.

Definition plain (name : string) (t : column_type) : column :=
  {| col_name := name; col_type := t; default_now := false |}.

Definition created_at : column :=
  {| col_name := "created_at"; col_type := DateTime_t; default_now := true |}.

Definition weather_hourly_def : table_def := {|
  columns := [plain "city" String_t; plain "date" Date_t; plain "hour" DateTime_t;
              plain "temperature" Float32_t; plain "precipitation" Float32_t;
              plain "wind_speed" Float32_t; plain "wind_direction" Int32_t; created_at];
  partition_by := "toYYYYMM(date)";
  order_by := ["city"; "date"; "hour"]
|}.

Definition weather_daily_def : table_def := {|
  columns := [plain "city" String_t; plain "date" Date_t; plain "temp_min" Float32_t;
              plain "temp_max" Float32_t; plain "temp_avg" Float32_t;
              plain "precipitation_total" Float32_t; plain "wind_max" Float32_t;
              created_at];
  partition_by := "toYYYYMM(date)";
  order_by := ["city"; "date"]
|}.

Definition create_tables : M unit :=
  _ <- execute (CreateDatabaseIfNotExists "weather");
  _ <- print "Database 'weather' created/verified";
  _ <- execute (CreateTableIfNotExists "weather" "weather_hourly" weather_hourly_def);
  _ <- print "Table 'weather_hourly' created/verified";
  _ <- execute (CreateTableIfNotExists "weather" "weather_daily" weather_daily_def);
  _ <- print "Table 'weather_daily' created/verified";
  print "All tables created successfully".

(** ** Vocabulary of the statements *)

(** The tables the script declares. *)
Definition declared : gmap (string * string) table_def :=
  {[ ("weather", "weather_hourly") := weather_hourly_def;
     ("weather", "weather_daily") := weather_daily_def ]}.

(** The events of a run in which every statement is accepted. *)
Definition script : list event :=
  [ Executed (CreateDatabaseIfNotExists "weather");
    Printed "Database 'weather' created/verified";
    Executed (CreateTableIfNotExists "weather" "weather_hourly" weather_hourly_def);
    Printed "Table 'weather_hourly' created/verified";
    Executed (CreateTableIfNotExists "weather" "weather_daily" weather_daily_def);
    Printed "Table 'weather_daily' created/verified";
    Printed "All tables created successfully" ].

(** The tables declared by the first [j] statements of the script. *)
Definition declared_by (j : nat) : gmap (string * string) table_def :=
  match j with
  | 0 | 1 => ∅
  | 2 => {[ ("weather", "weather_hourly") := weather_hourly_def ]}
  | _ => declared
  end.

(** A server with nothing on it. *)
Definition fresh_server : Server :=
  {| databases := ∅; tables := ∅; faults := []; trace := [] |}.

(** An earlier version of the daily table, and a server on which it is
    left. *)
Definition old_daily_def : table_def := {|
  columns := [plain "city" String_t; plain "date" Date_t; plain "temp_avg" Float32_t];
  partition_by := "toYYYYMM(date)";
  order_by := ["city"; "date"]
|}.

Definition old_server : Server :=
  {| databases := {[ "weather" ]};
     tables := {[ ("weather", "weather_daily") := old_daily_def ]};
     faults := []; trace := [] |}.

(** A server that refuses the third statement it receives. *)
Definition busy_server : Server :=
  {| databases := ∅; tables := ∅;
     faults := [None; None; Some (ExternalError "TOO_MANY_PARTS")]; trace := [] |}.

End CreateTables.

(** * Properties *)

(** ** Dates and their text forms *)

Section Dates.
Local Open Scope N_scope.

Example fromisoformat_hour :
  fromisoformat "2025-11-04T13:00" = Ok (DateTime (Date 2025 11 4) 13 0 0 0).
Proof. reflexivity. Qed.

Example fromisoformat_not_a_date : fromisoformat "2025-02-30T13:00" = Raise ValueError.
Proof. reflexivity. Qed.

Example strftime_Ymd_HMS_pads :
  strftime_Ymd_HMS (DateTime (Date 2025 11 4) 13 5 9 77) = "20251104_130509".
Proof. reflexivity. Qed.

Example plus_one_day_leap : plus_one_day (Date 2024 2 28) = Ok (Date 2024 2 29).
Proof. reflexivity. Qed.

Example plus_one_day_new_year : plus_one_day (Date 2025 12 31) = Ok (Date 2026 1 1).
Proof. reflexivity. Qed.

Lemma digit_val_digit n : digit_val (digit n) = Some (n mod 10).
Proof.
  unfold digit_val, digit.
  rewrite N_ascii_embedding by lia.
  replace (48 <=? 48 + n mod 10) with true by (symmetry; apply N.leb_le; lia).
  replace (48 + n mod 10 <=? 57) with true by (symmetry; apply N.leb_le; lia).
  simpl. f_equal. lia.
Qed.

Lemma parse_field_pad2 n :
  n < 100 → parse_field [digit (n / 10); digit n] = Ok n.
Proof.
  intros Hn. unfold parse_field. cbn [digits_val].
  rewrite !digit_val_digit. do 2 f_equal. lia.
Qed.

Lemma parse_field_pad4 n :
  n < 10000 →
  parse_field [digit (n / 1000); digit (n / 100); digit (n / 10); digit n] = Ok n.
Proof.
  intros Hn. unfold parse_field. cbn [digits_val].
  rewrite !digit_val_digit. do 2 f_equal. lia.
Qed.

Lemma days_in_month_bounds y m : 28 ≤ days_in_month y m ≤ 31.
Proof. unfold days_in_month. repeat case_match; lia. Qed.

Lemma valid_date_bounds d :
  valid_date d →
  1 ≤ year d ≤ 9999 ∧ 1 ≤ month d ≤ 12 ∧ 1 ≤ day d ≤ days_in_month (year d) (month d).
Proof.
  unfold valid_date, date_ok, MAXYEAR. rewrite !andb_true_iff, !N.leb_le. tauto.
Qed.

Lemma valid_date_intro y m d :
  1 ≤ y ≤ 9999 → 1 ≤ m ≤ 12 → 1 ≤ d ≤ days_in_month y m → valid_date (Date y m d).
Proof.
  unfold valid_date, date_ok, MAXYEAR. cbn [year month day].
  rewrite !andb_true_iff, !N.leb_le. tauto.
Qed.

(** Tomorrow is a date again. *)
Lemma plus_one_day_valid d tm : valid_date d → plus_one_day d = Ok tm → valid_date tm.
Proof.
  intros (Hy & Hm & Hd)%valid_date_bounds. unfold plus_one_day, MAXYEAR.
  repeat case_match; intros [= <-]; apply valid_date_intro;
    repeat match goal with
           | H : (_ <? _) = true |- _ => apply N.ltb_lt in H
           | H : (_ <? _) = false |- _ => apply N.ltb_ge in H
           end;
    pose proof (days_in_month_bounds (year d) (month d + 1));
    pose proof (days_in_month_bounds (year d + 1) 1); lia.
Qed.

(** Reading back a date that was written with ['%Y-%m-%d']. *)
Lemma strptime_strftime d : valid_date d → strptime_Y_m_d (strftime_Y_m_d d) = Ok d.
Proof.
  intros Hv. pose proof (valid_date_bounds d Hv) as (Hy & Hm & Hd).
  pose proof (days_in_month_bounds (year d) (month d)).
  unfold strptime_Y_m_d, strftime_Y_m_d.
  cbv [pad4 pad2 String.append list_ascii_of_string].
  rewrite decide_True by done.
  rewrite parse_field_pad4, !parse_field_pad2 by lia. cbn [result_bind].
  unfold checked_date. destruct d as [y m dd]. cbn [year month day] in *.
  by rewrite Hv.
Qed.

End Dates.


Section Properties.
Context {num : Type} `{!PyNumber num}.
Implicit Types (w : @World num) (data : @Payload num).

(** A task without retries is its function. *)
Lemma task_no_retries {A} (d : nat) (fn : M A) w : task 0 d fn w = fn w.
Proof. simpl. by destruct (fn w) as [[a|e] w']. Qed.

(** ** The daily transformer *)

(** What a successful daily transformation has gone through. *)
Lemma transform_daily_data_inv data w s w' :
  transform_daily_data data w = (Ok s, w') →
  ∃ tm k a b p,
    plus_one_day (date_of (clock w)) = Ok tm
    ∧ list_index (strftime_Y_m_d tm) (d_time (daily (forecast data))) = Ok k
    ∧ temperature_2m_min (daily (forecast data)) !! k = Some (Num a)
    ∧ temperature_2m_max (daily (forecast data)) !! k = Some (Num b)
    ∧ precipitation_sum (daily (forecast data)) !! k = Some p
    ∧ strptime_Y_m_d (strftime_Y_m_d tm) = Ok (ds_date s)
    ∧ s = {| ds_city := city data; ds_date := ds_date s;
             temp_min := Num a; temp_max := Num b;
             temp_avg := num_round1 (num_half (num_add a b));
             precipitation_total := p; wind_max := 0 |}
    ∧ w' = tick w.
Proof.
  unfold transform_daily_data. rewrite task_no_retries.
  unfold bind, lift, try_except_ValueError_IndexError, try_except, ret, raise, getitem.
  cbn [datetime_now].
  destruct (plus_one_day _) as [tm|e] eqn:Htm; [|done].
  destruct (list_index _ _) as [k|e] eqn:Hk; [|by destruct e].
  destruct (temperature_2m_min _ !! k) as [tmin|] eqn:Hmin; [|done].
  destruct (temperature_2m_max _ !! k) as [tmax|] eqn:Hmax; [|done].
  destruct tmin as [|a]; [done|]. destruct tmax as [|b]; [done|].
  cbn [cell_add].
  destruct (strptime_Y_m_d _) as [d|e] eqn:Hd; [|by destruct e].
  destruct (precipitation_sum _ !! k) as [p|] eqn:Hp; [|done].
  intros [= <- <-]. by exists tm, k, a, b, p.
Qed.

Lemma list_index_not_elem `{EqDecision A} (x : A) (l : list A) :
  x ∉ l → list_index x l = Raise ValueError.
Proof.
  induction l as [|y l IH]; [done|]. intros Hx. cbn [list_index].
  rewrite decide_False by (intros ->; apply Hx; left).
  rewrite IH; [done|]. intros ?. apply Hx. by right.
Qed.

Lemma list_index_lookup `{EqDecision A} (x : A) (l : list A) k :
  list_index x l = Ok k → l !! k = Some x ∧ ∀ j, j < k → l !! j ≠ Some x.
Proof.
  revert k. induction l as [|y l IH]; [done|]. intros k. cbn [list_index].
  destruct (decide (y = x)) as [->|Hne].
  - intros [= <-]. split; [done|]. lia.
  - destruct (list_index x l) as [i|e]; [|done]. intros [= <-].
    destruct (IH i eq_refl) as [Hi Hlt]. split; [done|].
    intros [|j] Hj; cbn; [congruence|]. apply Hlt. lia.
Qed.

(** C3, as the code has it: when tomorrow's date string is missing from the
    daily [time] array the daily transformation raises [ValueError], after
    logging it, and returns no summary; when the string is there, at first
    index [k], and the two temperature series hold numbers at [k] and the
    precipitation series has an entry at [k], it returns one summary, dated
    tomorrow. *)
Theorem transform_daily_data_tomorrow data w tm :
  clock_ok (clock w) →
  plus_one_day (date_of (clock w)) = Ok tm →
  (strftime_Y_m_d tm ∉ d_time (daily (forecast data)) →
   transform_daily_data data w
   = (Raise ValueError,
      logged [Print (NoDataForTomorrowIn (city data) ValueError)] (tick w)))
  ∧ (∀ k a b p,
       list_index (strftime_Y_m_d tm) (d_time (daily (forecast data))) = Ok k →
       temperature_2m_min (daily (forecast data)) !! k = Some (Num a) →
       temperature_2m_max (daily (forecast data)) !! k = Some (Num b) →
       precipitation_sum (daily (forecast data)) !! k = Some p →
       ∃ s, transform_daily_data data w = (Ok s, tick w)
            ∧ ds_date s = tm ∧ ds_city s = city data).
Proof.
  intros [[Hvalid _] _] Htm.
  assert (strptime_Y_m_d (strftime_Y_m_d tm) = Ok tm) as Hback
    by (eapply strptime_strftime, plus_one_day_valid; eauto).
  split.
  - intros Hmissing. unfold transform_daily_data. rewrite task_no_retries.
    unfold bind, lift, try_except_ValueError_IndexError, try_except.
    cbn [datetime_now]. rewrite Htm, (list_index_not_elem _ _ Hmissing). done.
  - intros k a b p Hk Hmin Hmax Hp. eexists.
    unfold transform_daily_data. rewrite task_no_retries.
    unfold bind, lift, try_except_ValueError_IndexError, try_except, getitem.
    cbn [datetime_now]. rewrite Htm, Hk, Hmin, Hmax. cbn [cell_add].
    rewrite Hback, Hp. done.
Qed.

(** C4: whenever the daily transformation succeeds, [temp_avg] is
    [round((temp_min + temp_max) / 2, 1)] of the two temperatures found at
    tomorrow's index in the daily series. *)
Theorem temp_avg_is_rounded_midpoint data w s w' :
  transform_daily_data data w = (Ok s, w') →
  ∃ tm k a b,
    plus_one_day (date_of (clock w)) = Ok tm
    ∧ list_index (strftime_Y_m_d tm) (d_time (daily (forecast data))) = Ok k
    ∧ temperature_2m_min (daily (forecast data)) !! k = Some (Num a)
    ∧ temperature_2m_max (daily (forecast data)) !! k = Some (Num b)
    ∧ temp_min s = Num a
    ∧ temp_max s = Num b
    ∧ temp_avg s = num_round1 (num_half (num_add a b)).
Proof.
  intros (tm & k & a & b & p & Htm & Hk & Hmin & Hmax & _ & _ & -> & _)
    %transform_daily_data_inv.
  by exists tm, k, a, b.
Qed.

(** C6: whenever the daily transformation succeeds, [wind_max] is 0,
    whatever the payload holds. *)
Theorem wind_max_is_zero data w s w' :
  transform_daily_data data w = (Ok s, w') → wind_max s = 0%Z.
Proof.
  by intros (tm & k & a & b & p & _ & _ & _ & _ & _ & _ & -> & _)
    %transform_daily_data_inv.
Qed.

(** ** The hourly transformer *)

Lemma hourly_entries_lookup (h : @Hourly num) i t a b c d :
  h_time h !! i = Some t → temperature_2m h !! i = Some a →
  precipitation h !! i = Some b → wind_speed_10m h !! i = Some c →
  wind_direction_10m h !! i = Some d →
  hourly_entries h !! i = Some (t, a, b, c, d).
Proof.
  intros Ht Ha Hb Hc Hd. unfold hourly_entries.
  repeat (apply lookup_zip_with_Some; eexists _, _; split_and!; [done| |done]).
  done.
Qed.

Lemma hourly_entries_length (h : @Hourly num) :
  well_formed_hourly h → length (hourly_entries h) = length (h_time h).
Proof.
  intros (_ & ? & ? & ? & ?). unfold hourly_entries. rewrite !length_zip_with. lia.
Qed.

(** The comprehension, from index [i] on, against the entries from [i] on. *)
Lemma comprehension_hourly_record (c : string) (h : @Hourly num) tm n i :
  well_formed_hourly h →
  i + n = length (h_time h) →
  comprehension (hourly_record c h tm) (seq i n)
  = Ok (omap (remap c)
          (filter (λ e, date_component (entry_time e) = Some tm)
             (drop i (hourly_entries h)))).
Proof.
  intros Hwf. revert i. induction n as [|n IH]; intros i Hi.
  - rewrite drop_ge by (rewrite hourly_entries_length by done; lia). done.
  - pose proof Hwf as (Hparse & Ha & Hb & Hc & Hd).
    destruct (lookup_lt_is_Some_2 (h_time h) i) as [t Ht]; [lia|].
    destruct (lookup_lt_is_Some_2 (temperature_2m h) i) as [a Hta]; [lia|].
    destruct (lookup_lt_is_Some_2 (precipitation h) i) as [b Htb]; [lia|].
    destruct (lookup_lt_is_Some_2 (wind_speed_10m h) i) as [ws Htc]; [lia|].
    destruct (lookup_lt_is_Some_2 (wind_direction_10m h) i) as [wd Htd]; [lia|].
    rewrite Forall_lookup in Hparse. destruct (Hparse i t Ht) as [dt Hdt].
    rewrite (drop_S _ _ _ (hourly_entries_lookup h i t a b ws wd Ht Hta Htb Htc Htd)).
    cbn [seq comprehension]. rewrite IH by lia.
    unfold hourly_record, getitem. rewrite Ht. cbn [result_bind]. rewrite Hdt.
    cbn [result_bind].
    destruct (decide (date_of dt = tm)) as [Heq|Hne].
    + rewrite Hta, Htb, Htc, Htd. cbn [result_bind].
      rewrite filter_cons_True
        by (unfold date_component, entry_time; cbn; by rewrite Hdt, Heq).
      cbn [omap list_omap remap]. by rewrite Hdt.
    + rewrite filter_cons_False; [done|].
      unfold date_component, entry_time; cbn. rewrite Hdt. congruence.
Qed.

Lemma remap_kept_entries (c : string) tm
    (l : list (string * @cell num * @cell num * @cell num * @cell num)) :
  let kept := filter (λ e, date_component (entry_time e) = Some tm) l in
  length (omap (remap c) kept) = length kept
  ∧ Forall (λ r, hr_date r = tm ∧ hr_city r = c) (omap (remap c) kept).
Proof.
  induction l as [|[[[[t a] b] ws] wd] l [IHlen IHall]]; [by split|].
  cbn zeta in *. unfold date_component, entry_time at 1 3; cbn [fst].
  destruct (fromisoformat t) as [dt|e] eqn:Hdt.
  - destruct (decide (date_of dt = tm)) as [Heq|Hne].
    + rewrite !filter_cons_True
        by (unfold date_component, entry_time; cbn; by rewrite Hdt, Heq).
      cbn [omap list_omap remap]. rewrite Hdt. cbn [length].
      split; [by f_equal|]. by constructor.
    + rewrite !filter_cons_False; [done|..];
        unfold date_component, entry_time; cbn; rewrite Hdt; congruence.
  - rewrite !filter_cons_False; [done|..];
      unfold date_component, entry_time; cbn; by rewrite Hdt.
Qed.

(** C2: on a well-formed payload the hourly transformation returns the
    entries of the hourly series whose date component is tomorrow, each
    remapped to one record, in series order; every record is dated
    tomorrow. *)
Theorem transform_hourly_data_keeps_tomorrow data w tm :
  well_formed_hourly (hourly (forecast data)) →
  plus_one_day (date_of (clock w)) = Ok tm →
  let kept := entries_of_date tm (hourly (forecast data)) in
  let rows := omap (remap (city data)) kept in
  transform_hourly_data data w
  = (Ok rows, logged [Print (HourlyDataFor (city data) (length rows))] (tick w))
  ∧ length rows = length kept
  ∧ Forall (λ r, hr_date r = tm ∧ hr_city r = city data) rows.
Proof.
  intros Hwf Htm kept rows.
  destruct (remap_kept_entries (city data) tm (hourly_entries (hourly (forecast data))))
    as [Hlen Hall].
  split; [|by split].
  unfold transform_hourly_data. rewrite task_no_retries.
  unfold bind, lift. cbn [datetime_now]. rewrite Htm.
  rewrite (comprehension_hourly_record _ _ tm _ 0 Hwf) by done.
  done.
Qed.

(** ** The analytical store loader *)

Lemma logged_logged evs1 evs2 w : logged evs2 (logged evs1 w) = logged (evs1 ++ evs2) w.
Proof. destruct w. unfold logged, set_trace. cbn. by rewrite app_assoc. Qed.

Lemma accepts_S n f faults : accepts (S n) (f :: faults) → f = None ∧ accepts n faults.
Proof. unfold accepts. cbn [take]. by intros [? ?]%Forall_cons. Qed.

Lemma execute_insert_hourly_accepted (r : @HourlyRecord num) w :
  accepts 1 (clickhouse_faults w) →
  ∃ w', execute_insert_hourly r w = (Ok tt, w')
        ∧ weather_hourly w' = weather_hourly w ++ [r]
        ∧ trace w' = trace w ++ [InsertHourly r]
        ∧ clickhouse_faults w' = drop 1 (clickhouse_faults w).
Proof.
  intros Hacc. unfold execute_insert_hourly, clickhouse_request, bind, emit.
  cbn [clickhouse_faults set_trace].
  destruct (clickhouse_faults w) as [|f rest] eqn:Hf; cbn [next_fault].
  - eexists. split; [done|]. by cbn.
  - apply accepts_S in Hacc as [-> _]. eexists. split; [done|]. by cbn.
Qed.

Lemma execute_insert_hourly_refused (r : @HourlyRecord num) w e :
  clickhouse_faults w !! 0 = Some (Some e) →
  ∃ w', execute_insert_hourly r w = (Raise e, w')
        ∧ weather_hourly w' = weather_hourly w
        ∧ trace w' = trace w ++ [InsertHourly r].
Proof.
  intros Hf. unfold execute_insert_hourly, clickhouse_request, bind, emit.
  cbn [clickhouse_faults set_trace].
  destruct (clickhouse_faults w) as [|f rest]; [done|]. injection Hf as ->.
  cbn [next_fault]. by eexists.
Qed.

Lemma insert_each_accepted (data : list (@HourlyRecord num)) w :
  accepts (length data) (clickhouse_faults w) →
  ∃ w', insert_each data w = (Ok tt, w')
        ∧ weather_hourly w' = weather_hourly w ++ data
        ∧ trace w' = trace w ++ (InsertHourly <$> data).
Proof.
  revert w. induction data as [|r data IH]; intros w Hacc.
  - exists w. by rewrite !app_nil_r.
  - destruct (execute_insert_hourly_accepted r w) as (w1 & Hrun & Hrows & Htr & Hfaults).
    { unfold accepts in *. cbn [length] in Hacc.
      destruct (clickhouse_faults w); [done|].
      apply Forall_cons in Hacc as [-> _]. by repeat constructor. }
    destruct (IH w1) as (w' & Hrest & Hrows' & Htr').
    { rewrite Hfaults. unfold accepts in *. cbn [length] in Hacc.
      destruct (clickhouse_faults w); [by rewrite drop_nil, take_nil|].
      by apply Forall_cons in Hacc as [_ ?]. }
    exists w'. cbn [insert_each]. unfold bind at 1. rewrite Hrun, Hrest.
    rewrite Hrows', Hrows, Htr', Htr, <- !app_assoc. done.
Qed.

Lemma insert_each_refused (data : list (@HourlyRecord num)) w j e :
  j < length data →
  accepts j (clickhouse_faults w) →
  clickhouse_faults w !! j = Some (Some e) →
  ∃ w', insert_each data w = (Raise e, w')
        ∧ weather_hourly w' = weather_hourly w ++ take j data
        ∧ trace w' = trace w ++ (InsertHourly <$> take (S j) data).
Proof.
  revert w j. induction data as [|r data IH]; intros w j Hj Hacc Hf; [cbn in Hj; lia|].
  destruct j as [|j].
  - destruct (execute_insert_hourly_refused r w e Hf) as (w1 & Hrun & Hrows & Htr).
    exists w1. cbn [insert_each]. unfold bind. rewrite Hrun.
    rewrite Hrows, Htr, take_0, app_nil_r. done.
  - destruct (clickhouse_faults w) as [|f faults] eqn:Hfaults_w; [done|].
    apply accepts_S in Hacc as [-> Hacc].
    destruct (execute_insert_hourly_accepted r w) as (w1 & Hrun & Hrows & Htr & Hfaults).
    { rewrite Hfaults_w. by repeat constructor. }
    rewrite Hfaults_w in Hfaults. cbn in Hfaults, Hf, Hj.
    destruct (IH w1 j) as (w' & Hrest & Hrows' & Htr'); [lia|by rewrite Hfaults..|].
    exists w'. cbn [insert_each]. unfold bind at 1. rewrite Hrun, Hrest.
    rewrite Hrows', Hrows, Htr', Htr, <- !app_assoc. done.
Qed.

(** C7: with no record the hourly load issues no request to the store and
    returns; otherwise it sends one insert per record, in order, each
    holding that one row; the rows are all in the table when the store
    takes every insert, and when it refuses one the error is raised and the
    rows sent before stay inserted. *)
Theorem load_hourly_data_to_clickhouse_rows (data : list (@HourlyRecord num)) w :
  (data = [] →
   load_hourly_data_to_clickhouse data w = (Ok tt, logged [Print NoHourlyDataToLoad] w))
  ∧ (data ≠ [] → accepts (length data) (clickhouse_faults w) →
     ∃ w', load_hourly_data_to_clickhouse data w = (Ok tt, w')
           ∧ weather_hourly w' = weather_hourly w ++ data
           ∧ trace w' = trace w ++ (InsertHourly <$> data)
                                ++ [Print (LoadedHourlyRecords (length data))])
  ∧ (∀ j e, j < length data → accepts j (clickhouse_faults w) →
            clickhouse_faults w !! j = Some (Some e) →
     ∃ w', load_hourly_data_to_clickhouse data w = (Raise e, w')
           ∧ weather_hourly w' = weather_hourly w ++ take j data
           ∧ trace w' = trace w ++ (InsertHourly <$> take (S j) data)).
Proof.
  unfold load_hourly_data_to_clickhouse. rewrite task_no_retries. split_and!.
  - by intros ->.
  - intros Hne Hacc. destruct (insert_each_accepted data w Hacc) as (w1 & Hrun & Hrows & Htr).
    destruct data as [|r data]; [done|]. exists (logged [Print (LoadedHourlyRecords (length (r :: data)))] w1).
    unfold bind. rewrite Hrun. split; [done|]. cbn [logged set_trace weather_hourly trace].
    by rewrite Hrows, Htr, <- app_assoc.
  - intros j e Hj Hacc Hf.
    destruct (insert_each_refused data w j e Hj Hacc Hf) as (w1 & Hrun & Hrows & Htr).
    destruct data as [|r data]; [cbn in Hj; lia|]. exists w1.
    unfold bind. by rewrite Hrun.
Qed.

(** ** The orchestrator *)






(** ** The weather source adapter *)

Lemma weather_requests_app (evs1 evs2 : list (@event num)) :
  weather_requests (evs1 ++ evs2) = weather_requests evs1 + weather_requests evs2.
Proof. unfold weather_requests. by rewrite filter_app, length_app. Qed.

Lemma datetime_now_tick w : datetime_now w = (Ok (clock w), tick w).
Proof. done. Qed.

Lemma trace_tick w : trace (tick w) = trace w.
Proof. unfold tick. cbn. by destruct (clock_later w). Qed.

(** One run of the task body sends one request and never sleeps. *)
Lemma fetch_weather_data_fn_events city lat lon w :
  ∃ evs, trace (fetch_weather_data_fn city lat lon w).2 = trace w ++ evs
         ∧ weather_requests evs = 1
         ∧ Forall (λ ev, ∀ k, ev ≠ Sleep k) evs.
Proof.
  unfold fetch_weather_data_fn, requests_get_weather, raise_for_status, response_json,
    bind, try_except, print, emit, ret, raise.
  cbn [weather_api set_trace trace].
  destruct (weather_api w) as [|[e|st b] rest]; cbn [next_reply].
  - eexists [_; _; _]. cbn. rewrite <- !app_assoc. split_and!; [done..|].
    repeat constructor; done.
  - eexists [_; _; _]. cbn. rewrite <- !app_assoc. split_and!; [done..|].
    repeat constructor; done.
  - cbn [status_code body]. destruct ((400 <=? st) && (st <? 600)).
    + eexists [_; _; _]. cbn. rewrite <- !app_assoc. split_and!; [done..|].
      repeat constructor; done.
    + destruct b as [f|].
      * eexists [_; _]. cbn. destruct (clock_later w); cbn;
          rewrite <- !app_assoc; (split_and!; [done..|]); repeat constructor; done.
      * eexists [_; _; _]. cbn. rewrite <- !app_assoc. split_and!; [done..|].
        repeat constructor; done.
Qed.

Lemma fetch_weather_data_fn_fails city lat lon w e :
  reply_error (weather_api w) = Some e →
  fetch_weather_data_fn city lat lon w
  = (Raise e, logged (failed_attempt city lat lon e)
                (set_weather_api (drop 1 (weather_api w)) w)).
Proof.
  intros Herr.
  unfold fetch_weather_data_fn, requests_get_weather, raise_for_status, response_json,
    bind, try_except, print, emit, raise.
  cbn [weather_api set_trace].
  assert (∀ rest,
            (Raise e, set_trace (((trace w ++ [Print (FetchingDataFor city)])
                                  ++ [WeatherGet lat lon])
                                 ++ [Print (ApiErrorFor city e)])
                        (set_weather_api rest
                           (set_trace ((trace w ++ [Print (FetchingDataFor city)])
                                       ++ [WeatherGet lat lon])
                              (set_trace (trace w ++ [Print (FetchingDataFor city)]) w))))
            = (@Raise (@Payload num) e,
               logged (failed_attempt city lat lon e) (set_weather_api rest w)))
    as Hworld.
  { intros rest. f_equal. destruct w. unfold logged, set_trace, set_weather_api, failed_attempt.
    cbn. by rewrite <- !app_assoc. }
  destruct (weather_api w) as [|[e'|st b] rest]; cbn [reply_error next_reply drop] in *.
  - injection Herr as <-. apply Hworld.
  - injection Herr as <-. apply Hworld.
  - cbn [status_code body]. destruct ((400 <=? st) && (st <? 600)).
    + injection Herr as <-. apply Hworld.
    + destruct b as [f|]; [done|]. injection Herr as <-. apply Hworld.
Qed.

(** The task with [n] retries sends between one and [n + 1] requests,
    and sleeps the fixed delay between runs. *)
Lemma task_fetch_events n city lat lon w :
  ∃ evs, trace (task n 10 (fetch_weather_data_fn city lat lon) w).2 = trace w ++ evs
         ∧ 1 ≤ weather_requests evs ≤ S n
         ∧ Forall (λ ev, ∀ k, ev = Sleep k → k = 10) evs.
Proof.
  revert w. induction n as [|n IH]; intros w;
    destruct (fetch_weather_data_fn_events city lat lon w) as (evs1 & Htr1 & Hreq1 & Hsl1).
  - rewrite task_no_retries. exists evs1. split_and!; [done|lia..|].
    eapply Forall_impl; [done|]. intros ev Hev k ->. by destruct (Hev k).
  - cbn [task]. destruct (fetch_weather_data_fn city lat lon w) as [[a|e] w1].
    + exists evs1. split_and!; [done|lia..|].
      eapply Forall_impl; [done|]. intros ev Hev k ->. by destruct (Hev k).
    + unfold bind, emit. cbn [snd] in Htr1.
      destruct (IH (set_trace (trace w1 ++ [Sleep 10]) w1)) as (evs2 & Htr2 & Hreq2 & Hsl2).
      exists (evs1 ++ [Sleep 10] ++ evs2). split_and!.
      * rewrite Htr2. cbn [trace set_trace]. by rewrite Htr1, <- !app_assoc.
      * rewrite !weather_requests_app. change (weather_requests [Sleep 10]) with 0. lia.
      * rewrite !weather_requests_app. change (weather_requests [Sleep 10]) with 0. lia.
      * apply Forall_app. split.
        { eapply Forall_impl; [done|]. intros ev Hev k ->. by destruct (Hev k). }
        constructor; [by intros k [= <-]|done].
Qed.

Lemma logged_nil w : logged [] w = w.
Proof. destruct w. unfold logged, set_trace. cbn. by rewrite app_nil_r. Qed.

Lemma set_weather_api_logged rs evs w :
  set_weather_api rs (logged evs w) = logged evs (set_weather_api rs w).
Proof. by destruct w. Qed.

Lemma set_weather_api_twice rs1 rs2 w :
  set_weather_api rs2 (set_weather_api rs1 w) = set_weather_api rs2 w.
Proof. by destruct w. Qed.

Lemma emit_logged ev evs w : emit ev (logged evs w) = (Ok tt, logged (evs ++ [ev]) w).
Proof. unfold emit. fold (logged [ev] (logged evs w)). by rewrite logged_logged. Qed.

(** A failed run of the task body, after the events [evs] and with the
    answers [script] to come. *)
Lemma failed_attempt_logged city lat lon e script evs w :
  reply_error script = Some e →
  fetch_weather_data_fn city lat lon (logged evs (set_weather_api script w))
  = (Raise e, logged (evs ++ failed_attempt city lat lon e)
                (set_weather_api (drop 1 script) w)).
Proof.
  intros Herr. rewrite (fetch_weather_data_fn_fails city lat lon _ e) by done.
  change (weather_api (logged evs (set_weather_api script w))) with script.
  by rewrite set_weather_api_logged, set_weather_api_twice, logged_logged.
Qed.

(** C5, as the code has it: the fetch task runs at most 4 times, the
    first run and up to 3 retries, 10 seconds apart, one request per run;
    when all 4 requests fail (transport error, 4xx or 5xx status,
    undecodable body) the error of the last one is raised to the caller, and
    [process_city] returns failure having touched nothing but the weather
    API and the log: no archive, transformation, load or notification takes
    place. *)
Theorem fetch_weather_data_attempts city coords w :
  (∃ evs, trace (fetch_weather_data city (latitude coords) (longitude coords) w).2
          = trace w ++ evs
          ∧ 1 ≤ weather_requests evs ≤ 4
          ∧ Forall (λ ev, ∀ k, ev = Sleep k → k = 10) evs)
  ∧ (∀ e1 e2 e3 e4,
       reply_error (weather_api w) = Some e1 →
       reply_error (drop 1 (weather_api w)) = Some e2 →
       reply_error (drop 2 (weather_api w)) = Some e3 →
       reply_error (drop 3 (weather_api w)) = Some e4 →
       let attempt := failed_attempt city (latitude coords) (longitude coords) in
       let attempts := attempt e1 ++ [Sleep 10] ++ attempt e2 ++ [Sleep 10]
                       ++ attempt e3 ++ [Sleep 10] ++ attempt e4 in
       fetch_weather_data city (latitude coords) (longitude coords) w
       = (Raise e4, logged attempts (set_weather_api (drop 4 (weather_api w)) w))
       ∧ process_city city coords w
         = (Ok false,
            logged ([Print (Processing city)] ++ attempts
                    ++ [Print (ErrorProcessing city e4)])
              (set_weather_api (drop 4 (weather_api w)) w))).
Proof.
  split; [apply task_fetch_events|].
  intros e1 e2 e3 e4 He1 He2 He3 He4 attempt attempts.
  assert (∀ evs w0,
            fetch_weather_data city (latitude coords) (longitude coords)
              (logged evs (set_weather_api (weather_api w) w0))
            = (Raise e4, logged (evs ++ attempts)
                           (set_weather_api (drop 4 (weather_api w)) w0)))
    as Hfetch.
  { intros evs w0. unfold fetch_weather_data. cbn [task].
    rewrite (failed_attempt_logged _ _ _ e1) by done. cbv beta iota.
    unfold bind at 1. rewrite emit_logged, (failed_attempt_logged _ _ _ e2) by done.
    cbv beta iota. rewrite drop_drop.
    unfold bind at 1. rewrite emit_logged, (failed_attempt_logged _ _ _ e3) by done.
    cbv beta iota. rewrite drop_drop.
    unfold bind at 1. rewrite emit_logged, (failed_attempt_logged _ _ _ e4) by done.
    rewrite drop_drop. do 2 f_equal. subst attempts attempt. by rewrite <- !app_assoc. }
  assert (set_weather_api (weather_api w) w = w) as Hsame by (by destruct w).
  split.
  - rewrite <- (logged_nil w) at 1. rewrite <- Hsame at 1. by rewrite Hfetch.
  - unfold process_city, try_except, process_city_body.
    unfold bind at 1, print at 1. rewrite <- (logged_nil w) at 1. rewrite emit_logged.
    unfold bind at 1. rewrite <- Hsame at 1. rewrite Hfetch.
    unfold bind, print. rewrite emit_logged. by rewrite <- !app_assoc.
Qed.

(** ** The notification dispatcher *)

Lemma chat_id_set_members (l : list Update) :
  Forall update_ok l →
  ∃ ids, chat_id_set l = Ok ids
         ∧ ∀ x, x ∈ ids ↔ ∃ u m id, u ∈ l ∧ message u = Some m
                                    ∧ chat_id m = Some id ∧ x = pretty id.
Proof.
  induction 1 as [|u l Hu _ (ids & Hids & Hmem)].
  - exists ∅. split; [done|]. intros x. split; [set_solver|].
    by intros (u & _ & _ & ?%elem_of_nil & _).
  - cbn [chat_id_set]. destruct (message u) as [m|] eqn:Hm.
    + destruct (Hu m Hm) as [id Hid]. rewrite Hid, Hids. cbn [result_bind].
      eexists. split; [done|]. intros x. rewrite elem_of_union, elem_of_singleton, Hmem.
      split.
      * intros [->|(u' & m' & id' & ? & ? & ? & ->)].
        -- exists u, m, id. split_and!; [left|done..].
        -- exists u', m', id'. split_and!; [by right|done..].
      * intros (u' & m' & id' & [->|?]%elem_of_cons & Hm' & Hid' & ->).
        -- left. congruence.
        -- right. by exists u', m', id'.
    + exists ids. split; [done|]. intros x. rewrite Hmem. split.
      * intros (u' & m' & id' & ? & ? & ? & ->). exists u', m', id'. split_and!; [by right|done..].
      * intros (u' & m' & id' & [->|?]%elem_of_cons & Hm' & Hid' & ->); [congruence|].
        by exists u', m', id'.
Qed.

Lemma chat_id_set_malformed (l : list Update) :
  ¬ Forall update_ok l → chat_id_set l = Raise KeyError.
Proof.
  induction l as [|u l IH]; [by intros []|]. intros Hbad. cbn [chat_id_set].
  destruct (message u) as [m|] eqn:Hm.
  - destruct (chat_id m) as [id|] eqn:Hid; [|done].
    rewrite IH; [done|]. intros Hl. apply Hbad. constructor; [|done].
    intros m' Hm'. rewrite Hm in Hm'. injection Hm' as <-. by rewrite Hid.
  - apply IH. intros Hl. apply Hbad. constructor; [|done]. intros m' Hm'. congruence.
Qed.

(** [get_chat_ids] returns, having sent one request and written at most
    one line, which is not a tally. *)
Local Ltac no_tally :=
  let Hin := fresh in
  intros ? ? Hin%list_elem_of_In; cbn in Hin; intuition discriminate.

Lemma get_chat_ids_returns t w :
  ∃ ids w' lines,
    get_chat_ids t w = (Ok ids, w')
    ∧ trace w' = trace w ++ TelegramGetUpdates t :: (Print <$> lines)
    ∧ ∀ a b, NotificationsSent a b ∉ lines.
Proof.
  unfold get_chat_ids, requests_get_getUpdates, raise_for_status, response_json, try_except,
    bind, lift, print, emit, ret, raise.
  cbn [telegram_getUpdates set_trace].
  destruct (telegram_getUpdates w) as [|[e|st [data|]] rest]; cbn [next_reply status_code body].
  - eexists _, _, [_]. cbn. rewrite <- !app_assoc. split_and!; [done..|]. no_tally.
  - eexists _, _, [_]. cbn. rewrite <- !app_assoc. split_and!; [done..|]. no_tally.
  - destruct ((400 <=? st) && (st <? 600)).
    { eexists _, _, [_]. cbn. rewrite <- !app_assoc. split_and!; [done..|]. no_tally. }
    destruct (ok data); cbn [negb].
    + destruct (chat_id_set (updates_result data)) as [ids|e].
      * eexists _, _, [_]. cbn. rewrite <- !app_assoc. split_and!; [done..|]. no_tally.
      * eexists _, _, [_]. cbn. rewrite <- !app_assoc. split_and!; [done..|]. no_tally.
    + eexists _, _, []. cbn. split_and!; [done..|]. no_tally.
  - destruct ((400 <=? st) && (st <? 600)).
    + eexists _, _, [_]. cbn. rewrite <- !app_assoc. split_and!; [done..|]. no_tally.
    + eexists _, _, [_]. cbn. rewrite <- !app_assoc. split_and!; [done..|]. no_tally.
Qed.

Lemma get_chat_ids_fails t w :
  resolution_fails w → ∃ w', get_chat_ids t w = (Ok [], w').
Proof.
  unfold resolution_fails, get_chat_ids, requests_get_getUpdates, raise_for_status,
    response_json, try_except, bind, lift, print, emit, ret, raise.
  cbn [telegram_getUpdates set_trace].
  destruct (telegram_getUpdates w) as [|[e|st [data|]] rest]; cbn [next_reply status_code body];
    intros Hfail; try by eexists.
  - destruct ((400 <=? st) && (st <? 600)) eqn:Hst; [by eexists|].
    destruct Hfail as [Hfail|[Hfail|Hfail]].
    + apply andb_false_iff in Hst as [?%Nat.leb_gt|?%Nat.ltb_ge]; lia.
    + rewrite Hfail. by eexists.
    + rewrite (chat_id_set_malformed _ Hfail). destruct (ok data); by eexists.
  - destruct ((400 <=? st) && (st <? 600)); by eexists.
Qed.

Lemma get_chat_ids_resolves t w st answer rest :
  telegram_getUpdates w = Reply st (Some answer) :: rest →
  ¬ 400 ≤ st < 600 → ok answer = true → Forall update_ok (updates_result answer) →
  ∃ ids w',
    get_chat_ids t w = (Ok ids, w')
    ∧ NoDup ids
    ∧ ∀ x, x ∈ ids ↔ ∃ u m id, u ∈ updates_result answer ∧ message u = Some m
                               ∧ chat_id m = Some id ∧ x = pretty id.
Proof.
  intros Hreply Hst Hok Hwf.
  destruct (chat_id_set_members _ Hwf) as (ids & Hids & Hmem).
  unfold get_chat_ids, requests_get_getUpdates, raise_for_status, response_json, try_except,
    bind, lift, print, emit, ret, raise.
  cbn [telegram_getUpdates set_trace]. rewrite Hreply. cbn [next_reply status_code body].
  replace ((400 <=? st) && (st <? 600)) with false.
  2:{ symmetry. apply andb_false_iff.
      destruct (decide (400 ≤ st)); [right; apply Nat.ltb_ge|left; apply Nat.leb_gt]; lia. }
  rewrite Hok, Hids. cbn [negb].
  eexists _, _. split; [done|]. split; [apply NoDup_elements|].
  intros x. by rewrite elem_of_elements, Hmem.
Qed.

Lemma send_telegram_notifications_nobody (s : @DailySummary num) w t w1 :
  TELEGRAM_BOT_TOKEN w = Some t → t ≠ "" →
  get_chat_ids t w = (Ok [], w1) →
  send_telegram_notifications s w = (Ok tt, logged [Print NoUsersFound] w1).
Proof.
  intros Htoken Ht Hget. unfold send_telegram_notifications. rewrite task_no_retries.
  unfold bind, os_getenv_TELEGRAM_BOT_TOKEN. rewrite Htoken.
  cbn [token_missing default from_option id].
  rewrite bool_decide_eq_false_2 by done. by rewrite Hget.
Qed.

(** C10: [get_chat_ids] never raises; when the HTTP call fails, the
    response is malformed or its [ok] flag is false it returns the empty
    list, and the notification step is then a no-op that succeeds; when the
    resolution succeeds it returns, without duplicates, the chat identifiers
    of the updates that contain a message. *)
Theorem get_chat_ids_never_raises t w :
  (∃ ids w', get_chat_ids t w = (Ok ids, w'))
  ∧ (resolution_fails w →
     ∃ w', get_chat_ids t w = (Ok [], w')
           ∧ ∀ s : DailySummary,
               TELEGRAM_BOT_TOKEN w = Some t → t ≠ "" →
               send_telegram_notifications s w = (Ok tt, logged [Print NoUsersFound] w'))
  ∧ (∀ st answer rest,
       telegram_getUpdates w = Reply st (Some answer) :: rest →
       ¬ 400 ≤ st < 600 → ok answer = true → Forall update_ok (updates_result answer) →
       ∃ ids w',
         get_chat_ids t w = (Ok ids, w')
         ∧ NoDup ids
         ∧ ∀ x, x ∈ ids ↔ ∃ u m id, u ∈ updates_result answer ∧ message u = Some m
                                    ∧ chat_id m = Some id ∧ x = pretty id).
Proof.
  split_and!.
  - destruct (get_chat_ids_returns t w) as (ids & w' & _ & Hget & _). eauto.
  - intros Hfail. destruct (get_chat_ids_fails t w Hfail) as (w' & Hget).
    exists w'. split; [done|]. intros s Htoken Ht.
    by apply send_telegram_notifications_nobody with t.
  - apply get_chat_ids_resolves.
Qed.

(** C8, as the code has it: with the bot credential unset the dispatcher
    returns at once, without error and without any network call; when the
    credential is set and no subscriber is resolved it returns without
    error and sends no message: its one network call is the [getUpdates]
    request that resolves the subscribers, and it returns before a tally is
    computed or reported. *)
Theorem send_telegram_notifications_no_subscribers (s : @DailySummary num) w :
  (token_missing (TELEGRAM_BOT_TOKEN w) = true →
   send_telegram_notifications s w = (Ok tt, logged [Print BotTokenNotConfigured] w))
  ∧ (∀ t w1,
       TELEGRAM_BOT_TOKEN w = Some t → t ≠ "" →
       get_chat_ids t w = (Ok [], w1) →
       ∃ lines,
         send_telegram_notifications s w = (Ok tt, logged [Print NoUsersFound] w1)
         ∧ trace w1 = trace w ++ TelegramGetUpdates t :: (Print <$> lines)
         ∧ ∀ successful failed, NotificationsSent successful failed ∉ lines).
Proof.
  split.
  - intros Hmissing. unfold send_telegram_notifications. rewrite task_no_retries.
    unfold bind, os_getenv_TELEGRAM_BOT_TOKEN. by rewrite Hmissing.
  - intros t w1 Htoken Ht Hget.
    destruct (get_chat_ids_returns t w) as (ids & w' & lines & Hget' & Htrace & Hlines).
    rewrite Hget in Hget'. injection Hget' as <- <-.
    exists lines. split_and!; [|done..].
    by apply send_telegram_notifications_nobody with t.
Qed.

(** ** The raw archive writer *)












Lemma accepts_weaken n m (faults : list (option exn)) :
  n ≤ m → accepts m faults → accepts n faults.
Proof.
  unfold accepts. intros Hle Hm.
  replace (take n faults) with (take n (take m faults))
    by (rewrite take_take; f_equal; lia).
  by apply Forall_take.
Qed.





End Properties.

(** * More of the pipeline *)

(** * What the steps leave alone *)

Section FrameRules.
Context {num : Type} `{!PyNumber num}.
Local Abbreviation World := (@World num).
Local Abbreviation M := (@M num).
Local Abbreviation event := (@event num).

Variable R : World → World → Prop.
Variable allowed : event → Prop.

Hypothesis R_refl : ∀ w, R w w.
Hypothesis R_trans : ∀ w1 w2 w3, R w1 w2 → R w2 w3 → R w1 w3.
Hypothesis R_emit : ∀ ev w, allowed ev → R w (logged [ev] w).
Hypothesis R_clock : ∀ t ts w, R w (set_clock t ts w).
Hypothesis R_weather_api : ∀ rs w, R w (set_weather_api rs w).
Hypothesis R_getUpdates : ∀ rs w, R w (set_telegram_getUpdates rs w).
Hypothesis R_sendMessage : ∀ rs w, R w (set_telegram_sendMessage rs w).
Hypothesis R_minio_faults : ∀ fs w, R w (set_minio_faults fs w).
Hypothesis R_clickhouse_faults : ∀ fs w, R w (set_clickhouse_faults fs w).
Hypothesis R_make_bucket :
  ∀ b w, minio w !! b = None → R w (set_minio (<[b := ∅]> (minio w)) w).
Hypothesis R_put_object :
  ∀ b k v objects w, minio w !! b = Some objects →
    R w (set_minio (<[b := <[k := v]> objects]> (minio w)) w).
Hypothesis R_insert_hourly :
  ∀ r w, R w (set_weather_hourly (weather_hourly w ++ [r]) w).
Hypothesis R_insert_daily :
  ∀ r w, R w (set_weather_daily (weather_daily w ++ [r]) w).

Hypothesis allowed_Print : ∀ l, allowed (Print l).
Hypothesis allowed_Sleep : ∀ n, allowed (Sleep n).
Hypothesis allowed_WeatherGet : ∀ lat lon, allowed (WeatherGet lat lon).
Hypothesis allowed_GetUpdates : ∀ t, allowed (TelegramGetUpdates t).
Hypothesis allowed_SendMessage : ∀ t c s, allowed (TelegramSendMessage t c s).
Hypothesis allowed_Minio :
  ∀ b k, allowed (MinioBucketExists b) ∧ allowed (MinioMakeBucket b)
         ∧ allowed (MinioPutObject b k).
Hypothesis allowed_InsertHourly : ∀ r, allowed (InsertHourly r).
Hypothesis allowed_InsertDaily : ∀ r, allowed (InsertDaily r).

Lemma preserves_ret {A} (a : A) : preserves R (ret a).
Proof. intros w r w' [= _ <-]. apply R_refl. Qed.

Lemma preserves_raise {A} e : preserves R (@raise num A e).
Proof. intros w r w' [= _ <-]. apply R_refl. Qed.

Lemma preserves_lift {A} (x : result A) : preserves R (lift x).
Proof. intros w r w' [= _ <-]. apply R_refl. Qed.

Lemma preserves_bind {A B} (m : M A) (k : A → M B) :
  preserves R m → (∀ a, preserves R (k a)) → preserves R (bind m k).
Proof.
  intros Hm Hk w r w'. unfold bind. destruct (m w) as [[a|e] w1] eqn:Hrun.
  - intros Hrest. eapply R_trans; [by eapply Hm|by eapply Hk].
  - intros [= _ <-]. by eapply Hm.
Qed.

Lemma preserves_try_except {A} (body : M A) (handler : exn → M A) :
  preserves R body → (∀ e, preserves R (handler e)) → preserves R (try_except body handler).
Proof.
  intros Hm Hk w r w'. unfold try_except. destruct (body w) as [[a|e] w1] eqn:Hrun.
  - intros [= _ <-]. by eapply Hm.
  - intros Hrest. eapply R_trans; [by eapply Hm|by eapply Hk].
Qed.

Lemma preserves_emit ev : allowed ev → preserves R (emit ev).
Proof. intros Hev w r w' [= _ <-]. by apply R_emit. Qed.

Lemma preserves_print l : preserves R (print l).
Proof. apply preserves_emit, allowed_Print. Qed.

Lemma preserves_task {A} n d (fn : M A) : preserves R fn → preserves R (task n d fn).
Proof.
  intros Hfn. induction n as [|n IH]; intros w r w'; cbn [task];
    destruct (fn w) as [[a|e] w1] eqn:Hrun.
  - intros [= _ <-]. by eapply Hfn.
  - intros [= _ <-]. by eapply Hfn.
  - intros [= _ <-]. by eapply Hfn.
  - intros Hrest. eapply R_trans; [by eapply Hfn|].
    eapply (preserves_bind (emit (Sleep d)) (λ _, task n d fn)); [| |exact Hrest].
    + apply preserves_emit, allowed_Sleep.
    + intros _. exact IH.
Qed.

Lemma preserves_task_0 {A} d (fn : M A) : preserves R fn → preserves R (task 0 d fn).
Proof. intros Hfn w r w'. rewrite task_no_retries. apply Hfn. Qed.

Lemma preserves_datetime_now : preserves R datetime_now.
Proof.
  intros w r w' [= _ <-]. destruct (clock_later w); [apply R_refl|apply R_clock].
Qed.

Lemma preserves_getenv : preserves R os_getenv_TELEGRAM_BOT_TOKEN.
Proof. intros w r w' [= _ <-]. apply R_refl. Qed.

Lemma preserves_requests_get_weather lat lon : preserves R (requests_get_weather lat lon).
Proof.
  apply preserves_bind; [apply preserves_emit, allowed_WeatherGet|].
  intros _ w r w'. destruct (next_reply (weather_api w)) as [r0 rest].
  intros [= _ <-]. apply R_weather_api.
Qed.

Lemma preserves_requests_get_getUpdates t : preserves R (requests_get_getUpdates t).
Proof.
  apply preserves_bind; [apply preserves_emit, allowed_GetUpdates|].
  intros _ w r w'. destruct (next_reply (telegram_getUpdates w)) as [r0 rest].
  intros [= _ <-]. apply R_getUpdates.
Qed.

Lemma preserves_requests_post_sendMessage t c s :
  preserves R (requests_post_sendMessage t c s).
Proof.
  apply preserves_bind; [apply preserves_emit, allowed_SendMessage|].
  intros _ w r w'. destruct (next_reply (telegram_sendMessage w)) as [r0 rest].
  intros [= _ <-]. apply R_sendMessage.
Qed.

Lemma preserves_raise_for_status {B} (response : Response B) :
  preserves R (raise_for_status response).
Proof. unfold raise_for_status. case_match; [apply preserves_raise|apply preserves_ret]. Qed.

Lemma preserves_response_json {B} (response : Response B) :
  preserves R (response_json response).
Proof. unfold response_json. case_match; [apply preserves_ret|apply preserves_raise]. Qed.

Lemma preserves_minio_request ev : allowed ev → preserves R (minio_request ev).
Proof.
  intros Hev. apply preserves_bind; [by apply preserves_emit|].
  intros _ w r w'. destruct (next_fault (minio_faults w)) as [r0 rest].
  intros [= _ <-]. apply R_minio_faults.
Qed.

Lemma preserves_bucket_exists b : preserves R (bucket_exists b).
Proof.
  apply preserves_bind; [apply preserves_minio_request, (allowed_Minio b "")|].
  intros _ w r w' [= _ <-]. apply R_refl.
Qed.

Lemma preserves_make_bucket b : preserves R (make_bucket b).
Proof.
  apply preserves_bind; [apply preserves_minio_request, (allowed_Minio b "")|].
  intros _ w r w'. destruct (minio w !! b) eqn:Hb; intros [= _ <-];
    [apply R_refl|by apply R_make_bucket].
Qed.

Lemma preserves_put_object b k v : preserves R (put_object b k v).
Proof.
  apply preserves_bind; [apply preserves_minio_request, (allowed_Minio b k)|].
  intros _ w r w'. destruct (minio w !! b) eqn:Hb; intros [= _ <-];
    [by apply R_put_object|apply R_refl].
Qed.

Lemma preserves_clickhouse_request ev : allowed ev → preserves R (clickhouse_request ev).
Proof.
  intros Hev. apply preserves_bind; [by apply preserves_emit|].
  intros _ w r w'. destruct (next_fault (clickhouse_faults w)) as [r0 rest].
  intros [= _ <-]. apply R_clickhouse_faults.
Qed.

Lemma preserves_execute_insert_hourly r : preserves R (execute_insert_hourly r).
Proof.
  apply preserves_bind; [apply preserves_clickhouse_request, allowed_InsertHourly|].
  intros _ w r0 w' [= _ <-]. apply R_insert_hourly.
Qed.

Lemma preserves_execute_insert_daily r : preserves R (execute_insert_daily r).
Proof.
  apply preserves_bind; [apply preserves_clickhouse_request, allowed_InsertDaily|].
  intros _ w r0 w' [= _ <-]. apply R_insert_daily.
Qed.

(** One step of a proof that a program built from the steps above
    preserves [R]. *)
Local Ltac frame_step :=
  lazymatch goal with
  | |- preserves _ (bind _ _) => apply preserves_bind; [|intros ?]
  | |- preserves _ (try_except _ _) => apply preserves_try_except; [|intros ?]
  | |- preserves _ (task 0 _ _) => apply preserves_task_0
  | |- preserves _ (task _ _ _) => apply preserves_task
  | |- preserves _ (ret _) => apply preserves_ret
  | |- preserves _ (raise _) => apply preserves_raise
  | |- preserves _ (lift _) => apply preserves_lift
  | |- preserves _ (print _) => apply preserves_print
  | |- preserves _ datetime_now => apply preserves_datetime_now
  | |- preserves _ os_getenv_TELEGRAM_BOT_TOKEN => apply preserves_getenv
  | |- preserves _ (requests_get_weather _ _) => apply preserves_requests_get_weather
  | |- preserves _ (requests_get_getUpdates _) => apply preserves_requests_get_getUpdates
  | |- preserves _ (requests_post_sendMessage _ _ _) =>
      apply preserves_requests_post_sendMessage
  | |- preserves _ (raise_for_status _) => apply preserves_raise_for_status
  | |- preserves _ (response_json _) => apply preserves_response_json
  | |- preserves _ (bucket_exists _) => apply preserves_bucket_exists
  | |- preserves _ (make_bucket _) => apply preserves_make_bucket
  | |- preserves _ (put_object _ _ _) => apply preserves_put_object
  | |- preserves _ (execute_insert_hourly _) => apply preserves_execute_insert_hourly
  | |- preserves _ (execute_insert_daily _) => apply preserves_execute_insert_daily
  | |- preserves _ (if ?b then _ else _) => destruct b
  | |- preserves _ (match ?x with _ => _ end) => destruct x
  end.

Lemma preserves_get_chat_ids t : preserves R (get_chat_ids t).
Proof. unfold get_chat_ids. repeat frame_step. Qed.

Lemma preserves_fetch_weather_data city lat lon :
  preserves R (fetch_weather_data city lat lon).
Proof. unfold fetch_weather_data, fetch_weather_data_fn. repeat frame_step. Qed.

Lemma preserves_save_raw_data_to_minio data city :
  preserves R (save_raw_data_to_minio data city).
Proof. unfold save_raw_data_to_minio. repeat frame_step. Qed.

Lemma preserves_transform_hourly_data data : preserves R (transform_hourly_data data).
Proof. unfold transform_hourly_data. repeat frame_step. Qed.

Lemma preserves_transform_daily_data data : preserves R (transform_daily_data data).
Proof.
  unfold transform_daily_data, try_except_ValueError_IndexError. repeat frame_step.
Qed.

Lemma preserves_insert_each data : preserves R (insert_each data).
Proof. induction data as [|r data IH]; cbn [insert_each]; repeat frame_step. exact IH. Qed.

Lemma preserves_load_hourly_data_to_clickhouse data :
  preserves R (load_hourly_data_to_clickhouse data).
Proof.
  unfold load_hourly_data_to_clickhouse. apply preserves_task_0.
  destruct data as [|r data]; [apply preserves_print|].
  apply preserves_bind; [apply preserves_insert_each|intros _; apply preserves_print].
Qed.

Lemma preserves_load_daily_data_to_clickhouse data :
  preserves R (load_daily_data_to_clickhouse data).
Proof. unfold load_daily_data_to_clickhouse. repeat frame_step. Qed.

Lemma preserves_send_each t text ids s f : preserves R (send_each t text ids s f).
Proof.
  revert s f. induction ids as [|c ids IH]; intros s f; cbn [send_each]; [apply preserves_ret|].
  apply preserves_bind.
  - repeat frame_step.
  - intros [s' f']. apply IH.
Qed.

Lemma preserves_send_telegram_notifications s :
  preserves R (send_telegram_notifications s).
Proof.
  unfold send_telegram_notifications. apply preserves_task_0.
  apply preserves_bind; [apply preserves_getenv|]. intros token.
  destruct (token_missing token); [apply preserves_print|].
  apply preserves_bind; [apply preserves_get_chat_ids|]. intros [|c ids];
    [apply preserves_print|].
  apply preserves_bind; [apply preserves_send_each|]. intros [s' f']. apply preserves_print.
Qed.

Lemma preserves_process_city city coords : preserves R (process_city city coords).
Proof.
  unfold process_city, process_city_body.
  apply preserves_try_except; [|intros e; repeat frame_step].
  apply preserves_bind; [apply preserves_print|]. intros _.
  apply preserves_bind; [apply preserves_fetch_weather_data|]. intros raw.
  apply preserves_bind; [apply preserves_save_raw_data_to_minio|]. intros _.
  apply preserves_bind; [apply preserves_transform_hourly_data|]. intros rows.
  apply preserves_bind; [apply preserves_transform_daily_data|]. intros s.
  apply preserves_bind; [apply preserves_load_hourly_data_to_clickhouse|]. intros _.
  apply preserves_bind; [apply preserves_load_daily_data_to_clickhouse|]. intros _.
  apply preserves_bind; [apply preserves_send_telegram_notifications|]. intros _.
  apply preserves_ret.
Qed.

Lemma preserves_for_cities cities n : preserves R (for_cities cities n).
Proof.
  revert n. induction cities as [|[city coords] cities IH]; intros n; cbn [for_cities];
    [apply preserves_ret|].
  apply preserves_bind; [apply preserves_process_city|]. intros b. apply IH.
Qed.

Lemma preserves_weather_etl_flow : preserves R weather_etl_flow.
Proof.
  unfold weather_etl_flow.
  apply preserves_bind; [apply preserves_print|]. intros _.
  apply preserves_bind; [apply preserves_print|]. intros _.
  apply preserves_bind; [apply preserves_for_cities|]. intros n.
  apply preserves_bind; [apply preserves_print|]. intros _. apply preserves_print.
Qed.

End FrameRules.

Section FrameFacts.
Context {num : Type} `{!PyNumber num}.
Local Abbreviation World := (@World num).
Local Abbreviation M := (@M num).
Local Abbreviation event := (@event num).
Implicit Types w : World.

Lemma kept_trans {X} (f : World → X) w1 w2 w3 :
  kept f w1 w2 → kept f w2 w3 → kept f w1 w3.
Proof. unfold kept. congruence. Qed.

Lemma emits_refl (P : event → Prop) w : emits P w w.
Proof. exists []. by rewrite app_nil_r. Qed.

Lemma emits_trans (P : event → Prop) w1 w2 w3 :
  emits P w1 w2 → emits P w2 w3 → emits P w1 w3.
Proof.
  intros (evs1 & Htr1 & H1) (evs2 & Htr2 & H2). exists (evs1 ++ evs2).
  split; [by rewrite Htr2, Htr1, app_assoc|by apply Forall_app].
Qed.

Lemma emits_logged (P : event → Prop) ev w : P ev → emits P w (logged [ev] w).
Proof. intros Hev. exists [ev]. split; [done|by constructor]. Qed.

Lemma emits_same_trace (P : event → Prop) w w' : trace w' = trace w → emits P w w'.
Proof. intros Htr. exists []. by rewrite app_nil_r. Qed.

(** X1: a fetch, whether it returns or raises, changes nothing but the
    script of the weather API, the clock and the trace, and the events it
    adds are log lines, retry delays and requests to the weather API. *)
Theorem fetch_weather_data_frame city lat lon w r w' :
  fetch_weather_data city lat lon w = (r, w') →
  beside_weather_api w' = beside_weather_api w ∧ emits fetch_event w w'.
Proof.
  intros Hrun. split.
  - eapply (preserves_fetch_weather_data (kept beside_weather_api) (λ _, True));
      try done. apply kept_trans.
  - eapply (preserves_fetch_weather_data (emits fetch_event) fetch_event); try done;
      first [apply emits_refl | apply emits_trans | apply emits_logged
            | intros; by apply emits_same_trace].
Qed.

End FrameFacts.

Section FetchMore.
Context {num : Type} `{!PyNumber num}.
Local Abbreviation World := (@World num).
Local Abbreviation Payload := (@Payload num).
Local Abbreviation Forecast := (@Forecast num).
Implicit Types w : World.

Lemma tick_logged evs w : tick (logged evs w) = logged evs (tick w).
Proof. unfold tick. cbn. by destruct (clock_later w). Qed.

Lemma tick_set_weather_api rs w : tick (set_weather_api rs w) = set_weather_api rs (tick w).
Proof. unfold tick. cbn. by destruct (clock_later w). Qed.

(** A run of the task body that is answered, after the events [evs]. *)
Lemma answered_attempt_logged city lat lon st (f : Forecast) rest evs w :
  ¬ 400 ≤ st < 600 →
  fetch_weather_data_fn city lat lon
    (logged evs (set_weather_api (Reply st (Some f) :: rest) w))
  = (Ok {| forecast := f; city := city; fetched_at := clock w |},
     logged (evs ++ [Print (FetchingDataFor city); WeatherGet lat lon])
       (set_weather_api rest (tick w))).
Proof.
  intros Hst.
  unfold fetch_weather_data_fn, requests_get_weather, raise_for_status, response_json,
    bind, try_except, print, ret.
  rewrite emit_logged, emit_logged.
  change (weather_api (logged ?e (set_weather_api ?s w))) with s.
  cbn [next_reply status_code body].
  replace ((400 <=? st) && (st <? 600)) with false.
  2:{ symmetry. apply andb_false_iff.
      destruct (decide (400 ≤ st)); [right; apply Nat.ltb_ge|left; apply Nat.leb_gt]; lia. }
  rewrite datetime_now_tick. f_equal.
  rewrite set_weather_api_logged, set_weather_api_twice, tick_logged, tick_set_weather_api.
  by rewrite <- app_assoc.
Qed.

Lemma task_fetch_first_success n city lat lon errs script st (f : Forecast) rest evs w :
  length errs ≤ n →
  (∀ i e, errs !! i = Some e → reply_error (drop i script) = Some e) →
  drop (length errs) script = Reply st (Some f) :: rest →
  ¬ 400 ≤ st < 600 →
  task n 10 (fetch_weather_data_fn city lat lon) (logged evs (set_weather_api script w))
  = (Ok {| forecast := f; city := city; fetched_at := clock w |},
     logged (evs ++ retried city lat lon errs
             ++ [Print (FetchingDataFor city); WeatherGet lat lon])
       (set_weather_api rest (tick w))).
Proof.
  revert errs script evs. induction n as [|n IH]; intros errs script evs Hlen Herrs Hgood Hst.
  - destruct errs; [|cbn in Hlen; lia]. cbn [length] in Hgood. rewrite drop_0 in Hgood.
    subst script.
    rewrite task_no_retries. by apply answered_attempt_logged.
  - destruct errs as [|e errs].
    + cbn [length] in Hgood. rewrite drop_0 in Hgood. subst script. cbn [task].
      by rewrite answered_attempt_logged.
    + cbn [task]. rewrite (failed_attempt_logged _ _ _ e) by (by apply (Herrs 0)).
      unfold bind at 1. rewrite emit_logged.
      rewrite (IH errs (drop 1 script)).
      * do 2 f_equal. unfold retried. cbn [mbind list_bind]. by rewrite <- !app_assoc.
      * cbn in Hlen. lia.
      * intros i e' Hi. rewrite drop_drop. by apply (Herrs (S i)).
      * by rewrite drop_drop.
      * done.
Qed.

(** X2: when the first [k <= 3] requests of a fetch fail and the next one
    is answered with a decodable body, the fetch returns that body, tagged
    with the city and the time read after the answer; it has sent [k + 1]
    requests, slept 10 seconds after each failure, and left the rest of the
    API's answers unread. *)
Theorem fetch_weather_data_first_success city lat lon errs st (f : Forecast) rest w :
  length errs ≤ 3 →
  (∀ i e, errs !! i = Some e → reply_error (drop i (weather_api w)) = Some e) →
  drop (length errs) (weather_api w) = Reply st (Some f) :: rest →
  ¬ 400 ≤ st < 600 →
  fetch_weather_data city lat lon w
  = (Ok {| forecast := f; city := city; fetched_at := clock w |},
     logged (retried city lat lon errs ++ [Print (FetchingDataFor city); WeatherGet lat lon])
       (set_weather_api rest (tick w)))
  ∧ weather_requests (retried (num:=num) city lat lon errs
                      ++ [Print (FetchingDataFor city); WeatherGet lat lon])
    = S (length errs).
Proof.
  intros Hlen Herrs Hgood Hst. split.
  - assert (set_weather_api (weather_api w) w = w) as Hsame by (by destruct w).
    unfold fetch_weather_data. rewrite <- (logged_nil w) at 1. rewrite <- Hsame at 1.
    by rewrite (task_fetch_first_success 3 city lat lon errs (weather_api w) st f rest).
  - rewrite weather_requests_app.
    change (weather_requests [Print (FetchingDataFor city); WeatherGet lat lon]) with 1.
    assert (weather_requests (retried (num:=num) city lat lon errs) = length errs) as ->;
      [|lia].
    clear. induction errs as [|e errs IH]; [done|].
    change (retried city lat lon (e :: errs))
      with ((failed_attempt (num:=num) city lat lon e ++ [Sleep 10])
            ++ retried city lat lon errs).
    rewrite weather_requests_app, IH. done.
Qed.

End FetchMore.

Section ArchiveMore.
Context {num : Type} `{!PyNumber num}.
Local Abbreviation World := (@World num).
Local Abbreviation M := (@M num).
Local Abbreviation event := (@event num).
Local Abbreviation Payload := (@Payload num).
Implicit Types w : World.








Lemma refused_at j (faults : list (option exn)) e :
  accepts j faults → faults !! j = Some (Some e) →
  ∃ rest, faults = replicate j None ++ Some e :: rest.
Proof.
  revert faults. induction j as [|j IH]; intros [|f faults] Hacc Hj; try done.
  - injection Hj as ->. by eexists.
  - apply accepts_S in Hacc as [-> Hacc]. destruct (IH faults Hacc Hj) as [rest ->].
    by eexists.
Qed.


Lemma accepts_next n (faults : list (option exn)) :
  accepts (S n) faults →
  match faults with Some _ :: _ => False | _ => True end ∧ accepts n (drop 1 faults).
Proof.
  destruct faults as [|[e|] rest]; intros Hacc.
  - split; [done|]. unfold accepts. by rewrite drop_nil, take_nil.
  - by apply accepts_S in Hacc as [? _].
  - by apply accepts_S in Hacc as [_ ?].
Qed.




End ArchiveMore.

Section HourlyMore.
Context {num : Type} `{!PyNumber num}.
Local Abbreviation World := (@World num).
Local Abbreviation Payload := (@Payload num).
Local Abbreviation Hourly := (@Hourly num).
Local Abbreviation HourlyRecord := (@HourlyRecord num).

Lemma hourly_record_inv c (h : Hourly) tm i r :
  hourly_record c h tm i = Ok (Some r) →
  hr_date r = tm ∧ hr_city r = c ∧ from_index h i r.
Proof.
  unfold hourly_record, getitem, from_index.
  destruct (h_time h !! i) as [t|]; [|done]. cbn [result_bind].
  destruct (fromisoformat t) as [dt|e] eqn:Hdt; [|done]. cbn [result_bind].
  destruct (decide (date_of dt = tm)) as [Hdate|]; [|done].
  destruct (temperature_2m h !! i) as [a|]; [|done].
  destruct (precipitation h !! i) as [b|]; [|done].
  destruct (wind_speed_10m h !! i) as [ws|]; [|done].
  destruct (wind_direction_10m h !! i) as [wd|]; [|done].
  intros [= <-]. cbn. split_and!; [done..|]. by exists t.
Qed.

Lemma comprehension_hourly_record_inv c (h : Hourly) tm l rows :
  comprehension (hourly_record c h tm) l = Ok rows →
  Forall (λ r, hr_date r = tm ∧ hr_city r = c ∧ ∃ i, i ∈ l ∧ from_index h i r) rows
  ∧ length rows ≤ length l.
Proof.
  revert rows. induction l as [|i l IH]; intros rows; cbn [comprehension].
  { intros [= <-]. split; [constructor|done]. }
  destruct (hourly_record c h tm i) as [o|e] eqn:Hi; [|done]. cbn [result_bind].
  destruct (comprehension (hourly_record c h tm) l) as [rest|e]; [|done].
  cbn [result_bind]. destruct (IH rest eq_refl) as [Hall Hlen].
  assert (Forall (λ r, hr_date r = tm ∧ hr_city r = c
                       ∧ ∃ j, j ∈ i :: l ∧ from_index h j r) rest) as Hall'.
  { eapply Forall_impl; [done|]. intros r (? & ? & j & ? & ?).
    split_and!; [done..|]. exists j. split; [by right|done]. }
  destruct o as [r|]; intros [= <-].
  - apply hourly_record_inv in Hi as (? & ? & ?). split; [|cbn; lia].
    constructor; [|done]. split_and!; [done..|]. exists i. split; [left|done].
  - split; [done|cbn; lia].
Qed.

(** What a successful hourly transformation has gone through. *)
Lemma transform_hourly_data_inv (data : Payload) w rows w' :
  transform_hourly_data data w = (Ok rows, w') →
  ∃ tm,
    plus_one_day (date_of (clock w)) = Ok tm
    ∧ comprehension (hourly_record (city data) (hourly (forecast data)) tm)
        (seq 0 (length (h_time (hourly (forecast data))))) = Ok rows
    ∧ w' = logged [Print (HourlyDataFor (city data) (length rows))] (tick w).
Proof.
  unfold transform_hourly_data. rewrite task_no_retries. unfold bind, lift.
  rewrite datetime_now_tick.
  destruct (plus_one_day _) as [tm|e] eqn:Htm; [|done].
  destruct (comprehension _ _) as [rows'|e] eqn:Hrows; [|done].
  intros [= <- <-]. by exists tm.
Qed.


Lemma comprehension_none_on c (h : Hourly) tm l :
  none_on tm (h_time h) → Forall (λ i, i < length (h_time h)) l →
  comprehension (hourly_record c h tm) l = Ok [].
Proof.
  intros Hnone. induction 1 as [|i l Hi _ IH]; [done|]. cbn [comprehension].
  rewrite IH. destruct (lookup_lt_is_Some_2 _ _ Hi) as [t Ht].
  unfold none_on in Hnone. rewrite Forall_lookup in Hnone.
  destruct (Hnone i t Ht) as (dt & Hdt & Hne).
  unfold hourly_record, getitem. rewrite Ht. cbn [result_bind]. rewrite Hdt.
  cbn [result_bind]. by rewrite decide_False.
Qed.

(** X5: when every time string of the hourly series parses and none is
    dated tomorrow, the hourly transformation returns the empty list, and
    never looks at the four value arrays. *)
Theorem transform_hourly_data_nothing_for_tomorrow (data : Payload) w tm :
  plus_one_day (date_of (clock w)) = Ok tm →
  none_on tm (h_time (hourly (forecast data))) →
  transform_hourly_data data w
  = (Ok [], logged [Print (HourlyDataFor (city data) 0)] (tick w)).
Proof.
  intros Htm Hnone. unfold transform_hourly_data. rewrite task_no_retries.
  unfold bind, lift. rewrite datetime_now_tick, Htm.
  rewrite (comprehension_none_on _ _ _ _ Hnone); [done|].
  apply Forall_forall. intros i Hi%elem_of_seq. lia.
Qed.

Lemma hourly_record_parsed c (h : Hourly) tm i :
  Forall (λ t, is_Ok (fromisoformat t)) (h_time h) → i < length (h_time h) →
  (∃ o, hourly_record c h tm i = Ok o) ∨ hourly_record c h tm i = Raise IndexError.
Proof.
  intros Hparse Hi. destruct (lookup_lt_is_Some_2 _ _ Hi) as [t Ht].
  rewrite Forall_lookup in Hparse. destruct (Hparse i t Ht) as [dt Hdt].
  unfold hourly_record, getitem. rewrite Ht. cbn [result_bind]. rewrite Hdt.
  cbn [result_bind]. destruct (decide (date_of dt = tm)); [|by left; eexists].
  destruct (temperature_2m h !! i); [|by right].
  destruct (precipitation h !! i); [|by right].
  destruct (wind_speed_10m h !! i); [|by right].
  destruct (wind_direction_10m h !! i); [|by right].
  left. by eexists.
Qed.

Lemma hourly_record_missing c (h : Hourly) tm i t dt :
  h_time h !! i = Some t → fromisoformat t = Ok dt → date_of dt = tm →
  value_missing h i → hourly_record c h tm i = Raise IndexError.
Proof.
  intros Ht Hdt Hdate Hmiss. unfold value_missing in Hmiss.
  unfold hourly_record, getitem. rewrite Ht.
  cbn [result_bind]. rewrite Hdt. cbn [result_bind]. rewrite decide_True by done.
  destruct (temperature_2m h !! i); [|done].
  destruct (precipitation h !! i); [|done].
  destruct (wind_speed_10m h !! i); [|done].
  destruct (wind_direction_10m h !! i); [|done].
  destruct Hmiss as [?|[?|[?|?]]]; discriminate.
Qed.

Lemma comprehension_parsed c (h : Hourly) tm l :
  Forall (λ t, is_Ok (fromisoformat t)) (h_time h) →
  Forall (λ i, i < length (h_time h)) l →
  (∃ rows, comprehension (hourly_record c h tm) l = Ok rows)
  ∨ comprehension (hourly_record c h tm) l = Raise IndexError.
Proof.
  intros Hparse. induction 1 as [|i l Hi _ IH]; [left; by eexists|].
  cbn [comprehension].
  destruct (hourly_record_parsed c h tm i Hparse Hi) as [[o ->]| ->]; [|by right].
  cbn [result_bind]. destruct IH as [[rows ->]| ->]; [left; by eexists|by right].
Qed.

Lemma comprehension_missing c (h : Hourly) tm l i t dt :
  Forall (λ t, is_Ok (fromisoformat t)) (h_time h) →
  Forall (λ i, i < length (h_time h)) l →
  i ∈ l → h_time h !! i = Some t → fromisoformat t = Ok dt → date_of dt = tm →
  value_missing h i →
  comprehension (hourly_record c h tm) l = Raise IndexError.
Proof.
  intros Hparse Hl Hin Ht Hdt Hdate Hmiss.
  induction Hl as [|j l Hj Hl IH]; [by apply elem_of_nil in Hin|].
  cbn [comprehension]. apply elem_of_cons in Hin as [<-|Hin].
  - by rewrite (hourly_record_missing c h tm i t dt).
  - destruct (hourly_record_parsed c h tm j Hparse Hj) as [[o ->]| ->]; [|done].
    cbn [result_bind]. by rewrite IH.
Qed.

(** X6: when every time string parses and an entry dated tomorrow lacks
    one of its four values (a value array shorter than [time]), the hourly
    transformation raises [IndexError], and writes no line. *)
Theorem transform_hourly_data_missing_value (data : Payload) w tm i t dt :
  plus_one_day (date_of (clock w)) = Ok tm →
  Forall (λ t, is_Ok (fromisoformat t)) (h_time (hourly (forecast data))) →
  h_time (hourly (forecast data)) !! i = Some t →
  fromisoformat t = Ok dt → date_of dt = tm →
  value_missing (hourly (forecast data)) i →
  transform_hourly_data data w = (Raise IndexError, tick w).
Proof.
  intros Htm Hparse Ht Hdt Hdate Hmiss. unfold transform_hourly_data.
  rewrite task_no_retries. unfold bind, lift. rewrite datetime_now_tick, Htm.
  rewrite (comprehension_missing _ _ _ _ i t dt); try done.
  - apply Forall_forall. intros j Hj%elem_of_seq. lia.
  - apply elem_of_seq. apply lookup_lt_Some in Ht. lia.
Qed.

End HourlyMore.

Section DailyMore.
Context {num : Type} `{!PyNumber num}.
Local Abbreviation World := (@World num).
Local Abbreviation Payload := (@Payload num).

(** X7: when tomorrow's date string is in the daily [time] array, at
    first index [k], the daily transformation raises [IndexError], after
    logging it, if a daily series has no entry at [k], and raises
    [TypeError], without a log line, if one of the two temperatures at [k]
    is null. *)
Theorem transform_daily_data_bad_series (data : Payload) w tm k :
  clock_ok (clock w) →
  plus_one_day (date_of (clock w)) = Ok tm →
  list_index (strftime_Y_m_d tm) (d_time (daily (forecast data))) = Ok k →
  let daily_data := daily (forecast data) in
  let logged_error :=
    (Raise IndexError,
     logged [Print (NoDataForTomorrowIn (city data) IndexError)] (tick w)) in
  ((temperature_2m_min daily_data !! k = None
    ∨ (is_Some (temperature_2m_min daily_data !! k)
       ∧ temperature_2m_max daily_data !! k = None)) →
   transform_daily_data data w = logged_error)
  ∧ (∀ a b, temperature_2m_min daily_data !! k = Some a →
            temperature_2m_max daily_data !! k = Some b →
            a = Null ∨ b = Null →
            transform_daily_data data w = (Raise TypeError, tick w))
  ∧ (∀ a b, temperature_2m_min daily_data !! k = Some (Num a) →
            temperature_2m_max daily_data !! k = Some (Num b) →
            precipitation_sum daily_data !! k = None →
            transform_daily_data data w = logged_error).
Proof.
  intros [[Hvalid _] _] Htm Hk daily_data logged_error.
  subst daily_data logged_error.
  assert (strptime_Y_m_d (strftime_Y_m_d tm) = Ok tm) as Hback
    by (eapply strptime_strftime, plus_one_day_valid; eauto).
  unfold transform_daily_data. rewrite task_no_retries.
  unfold bind, lift, try_except_ValueError_IndexError, try_except, getitem.
  rewrite datetime_now_tick, Htm, Hk. split_and!.
  - intros [Hmin|[[a Hmin] Hmax]]; rewrite Hmin; [done|]. by rewrite Hmax.
  - intros a b Hmin Hmax Hnull. rewrite Hmin, Hmax.
    destruct Hnull as [-> | ->]; [done|]. by destruct a.
  - intros a b Hmin Hmax Hp. rewrite Hmin, Hmax. cbn [cell_add]. by rewrite Hback, Hp.
Qed.

(** X8: when both transformations of a payload return and the clock
    shows the same date at their two readings, the hourly records and the
    daily summary carry the same date. *)
Theorem transforms_same_date (data : Payload) w rows w1 s w2 :
  transform_hourly_data data w = (Ok rows, w1) →
  transform_daily_data data w1 = (Ok s, w2) →
  clock_ok (clock w1) →
  date_of (clock w1) = date_of (clock w) →
  Forall (λ r, hr_date r = ds_date s) rows.
Proof.
  intros Hhourly Hdaily [[Hvalid _] _] Hsame.
  apply transform_hourly_data_inv in Hhourly as (tm & Htm & Hrows & _).
  apply comprehension_hourly_record_inv in Hrows as [Hall _].
  apply transform_daily_data_inv in Hdaily
    as (tm' & k & a & b & p & Htm' & _ & _ & _ & _ & Hback & _).
  rewrite Hsame, Htm in Htm'. injection Htm' as <-.
  rewrite strptime_strftime in Hback
    by (eapply plus_one_day_valid; [done|by rewrite Hsame]).
  injection Hback as <-. eapply Forall_impl; [done|]. by intros r (? & _).
Qed.

End DailyMore.

Section DispatcherMore.
Context {num : Type} `{!PyNumber num}.
Local Abbreviation World := (@World num).
Local Abbreviation DailySummary := (@DailySummary num).
Implicit Types w : World.

Lemma set_telegram_sendMessage_logged rs evs w :
  set_telegram_sendMessage rs (logged evs w) = logged evs (set_telegram_sendMessage rs w).
Proof. by destruct w. Qed.

Lemma set_telegram_sendMessage_twice rs1 rs2 w :
  set_telegram_sendMessage rs2 (set_telegram_sendMessage rs1 w)
  = set_telegram_sendMessage rs2 w.
Proof. by destruct w. Qed.

(** One pass of the loop body: the request is recorded, the next answer
    read, and one of the two counters goes up. *)
Lemma send_one t (text : DailySummary) c s f script evs w :
  try_except
    (bind (requests_post_sendMessage t c text)
       (λ response, if status_code response =? 200
                    then ret (S s, f) else ret (s, S f)))
    (λ _, ret (s, S f))
    (logged evs (set_telegram_sendMessage script w))
  = (Ok (if default false (delivered <$> head script) then (S s, f) else (s, S f)),
     logged (evs ++ [TelegramSendMessage t c text])
       (set_telegram_sendMessage (drop 1 script) w)).
Proof.
  unfold try_except, requests_post_sendMessage, bind. rewrite emit_logged.
  change (telegram_sendMessage (logged ?e (set_telegram_sendMessage ?x w))) with x.
  destruct script as [|[e|st b] script]; cbn [next_reply head fmap option_fmap option_map
    default from_option delivered drop status_code];
    rewrite set_telegram_sendMessage_logged, set_telegram_sendMessage_twice; try done.
  by destruct (st =? 200).
Qed.

Lemma send_each_run t (text : DailySummary) ids s f script evs w :
  let sent := length (filter (λ r, delivered r = true) (take (length ids) script)) in
  send_each t text ids s f (logged evs (set_telegram_sendMessage script w))
  = (Ok (s + sent, f + (length ids - sent)),
     logged (evs ++ ((λ c, TelegramSendMessage t c text) <$> ids))
       (set_telegram_sendMessage (drop (length ids) script) w)).
Proof.
  revert s f script evs. induction ids as [|c ids IH]; intros s f script evs sent.
  - cbn [send_each]. unfold ret. subst sent. cbn [length fmap list_fmap].
    rewrite take_0, drop_0, app_nil_r. cbn. do 3 f_equal; lia.
  - cbn [send_each]. unfold bind at 1. rewrite send_one.
    assert (length (filter (λ r, delivered r = true) (take (length ids) (drop 1 script)))
            ≤ length ids) as Hle.
    { etrans; [apply length_filter|]. rewrite length_take. lia. }
    destruct script as [|r script].
    + cbn [head fmap option_fmap option_map default from_option].
      rewrite IH, drop_drop. subst sent. cbn [length]. rewrite ?drop_nil, ?take_nil.
      cbn. rewrite <- app_assoc. do 3 f_equal; lia.
    + cbn [head fmap option_fmap option_map default from_option drop] in *.
      subst sent. cbn [length take]. rewrite drop_0 in Hle.
      destruct (delivered r) eqn:Hr.
      * rewrite filter_cons_True by done. unfold id. cbv beta iota zeta.
        rewrite drop_0, IH. cbn [length drop].
        rewrite <- app_assoc. cbn [app fmap list_fmap]. do 3 f_equal; lia.
      * rewrite filter_cons_False by (by rewrite Hr). unfold id. cbv beta iota zeta.
        rewrite drop_0, IH. cbn [drop].
        rewrite <- app_assoc. cbn [app fmap list_fmap]. do 3 f_equal; lia.
Qed.

(** X9: with the credential set and subscribers resolved, the dispatcher
    sends one message per subscriber, in the order they were resolved, each
    with the summary; it reports as successful the requests answered with
    status 200 and as failed all the others, so the two counts add up to the
    number of subscribers, and it does not raise. *)
Theorem send_telegram_notifications_tally (text : DailySummary) w t ids w1 :
  TELEGRAM_BOT_TOKEN w = Some t → t ≠ "" →
  get_chat_ids t w = (Ok ids, w1) → ids ≠ [] →
  let answers := take (length ids) (telegram_sendMessage w1) in
  let successful := length (filter (λ r, delivered r = true) answers) in
  successful ≤ length ids
  ∧ send_telegram_notifications text w
    = (Ok tt,
       logged (((λ c, TelegramSendMessage t c text) <$> ids)
               ++ [Print (NotificationsSent successful (length ids - successful))])
         (set_telegram_sendMessage (drop (length ids) (telegram_sendMessage w1)) w1)).
Proof.
  intros Htoken Ht Hget Hids answers successful. split.
  { subst successful answers. etrans; [apply length_filter|]. rewrite length_take. lia. }
  unfold send_telegram_notifications. rewrite task_no_retries.
  unfold bind at 1, os_getenv_TELEGRAM_BOT_TOKEN. rewrite Htoken.
  cbn [token_missing default from_option id].
  rewrite bool_decide_eq_false_2 by done. unfold bind at 1. rewrite Hget.
  destruct ids as [|c ids]; [done|]. unfold bind.
  assert (set_telegram_sendMessage (telegram_sendMessage w1) w1 = w1) as Hsame
    by (by destruct w1).
  rewrite <- (logged_nil w1) at 1. rewrite <- Hsame at 1. rewrite send_each_run.
  unfold print. rewrite emit_logged. cbn [app Nat.add]. done.
Qed.

Lemma send_each_returns t (text : DailySummary) ids s f w :
  ∃ s' f' w', send_each t text ids s f w = (Ok (s', f'), w').
Proof.
  assert (set_telegram_sendMessage (telegram_sendMessage w) w = w) as Hsame
    by (by destruct w).
  rewrite <- (logged_nil w), <- Hsame, send_each_run. by eexists _, _, _.
Qed.

Lemma send_telegram_notifications_returns (text : DailySummary) w :
  ∃ w', send_telegram_notifications text w = (Ok tt, w').
Proof.
  unfold send_telegram_notifications. rewrite task_no_retries.
  unfold bind at 1, os_getenv_TELEGRAM_BOT_TOKEN.
  destruct (token_missing (TELEGRAM_BOT_TOKEN w)); [by eexists|].
  unfold bind at 1.
  destruct (get_chat_ids_returns (default "" (TELEGRAM_BOT_TOKEN w)) w)
    as (ids & w1 & lines & -> & _).
  destruct ids as [|c ids]; [by eexists|]. unfold bind.
  destruct (send_each_returns (default "" (TELEGRAM_BOT_TOKEN w)) text (c :: ids) 0 0 w1)
    as (s' & f' & w2 & ->).
  by eexists.
Qed.

End DispatcherMore.

Section PipelineMore.
Context {num : Type} `{!PyNumber num}.
Local Abbreviation World := (@World num).
Local Abbreviation M := (@M num).
Local Abbreviation event := (@event num).
Local Abbreviation Payload := (@Payload num).
Local Abbreviation DailySummary := (@DailySummary num).
Local Abbreviation HourlyRecord := (@HourlyRecord num).
Implicit Types w : World.

Lemma never_deletes_refl w : never_deletes w w.
Proof. by split_and!. Qed.

Lemma never_deletes_trans w1 w2 w3 :
  never_deletes w1 w2 → never_deletes w2 w3 → never_deletes w1 w3.
Proof. intros (? & ? & ?) (? & ? & ?). split_and!; by etrans. Qed.

Lemma never_deletes_same w w' :
  tables w' = tables w → minio w' = minio w → never_deletes w w'.
Proof.
  unfold tables, never_deletes, archive. intros [= -> ->] ->. by split_and!.
Qed.

Local Ltac emits_rules :=
  try done;
  first [eassumption | apply emits_refl | apply emits_trans | apply emits_logged
        | intros; by apply emits_same_trace].

(** X10: the two transformations, whether they return or raise, read the
    clock and write log lines, and nothing else: the stores and the scripts
    of the services are as they were, and no request is issued. *)
Theorem transformations_are_pure (data : Payload) w :
  (∀ r w', transform_hourly_data data w = (r, w') →
           beside_clock w' = beside_clock w ∧ emits is_print w w')
  ∧ (∀ r w', transform_daily_data data w = (r, w') →
             beside_clock w' = beside_clock w ∧ emits is_print w w').
Proof.
  split; intros r w' Hrun; split.
  - eapply (preserves_transform_hourly_data (kept beside_clock) (λ _, True)); try done.
    apply kept_trans.
  - eapply (preserves_transform_hourly_data (emits is_print) is_print); emits_rules.
  - eapply (preserves_transform_daily_data (kept beside_clock) (λ _, True)); try done.
    apply kept_trans.
  - eapply (preserves_transform_daily_data (emits is_print) is_print); emits_rules.
Qed.

(** X11: the dispatcher never raises, whatever the Telegram API answers;
    it changes nothing but the scripts of the Telegram API and the trace,
    and the events it adds are log lines and requests to the Telegram
    API. *)
Theorem send_telegram_notifications_harmless (text : DailySummary) w :
  ∃ w', send_telegram_notifications text w = (Ok tt, w')
        ∧ beside_telegram w' = beside_telegram w
        ∧ emits telegram_event w w'.
Proof.
  destruct (send_telegram_notifications_returns text w) as [w' Hrun].
  exists w'. split_and!; [done| |].
  - eapply (preserves_send_telegram_notifications (kept beside_telegram) (λ _, True));
      try done. apply kept_trans.
  - eapply (preserves_send_telegram_notifications (emits telegram_event) telegram_event);
      emits_rules.
Qed.

Lemma never_deletes_flow_rules :
  (∀ ev w, True → never_deletes w (logged [ev] w))
  ∧ (∀ b w, minio w !! b = None → never_deletes w (set_minio (<[b := ∅]> (minio w)) w))
  ∧ (∀ b k (v : Payload) objects w, minio w !! b = Some objects →
       never_deletes w (set_minio (<[b := <[k := v]> objects]> (minio w)) w))
  ∧ (∀ (r : HourlyRecord) w,
       never_deletes w (set_weather_hourly (weather_hourly w ++ [r]) w))
  ∧ (∀ (r : DailySummary) w,
       never_deletes w (set_weather_daily (weather_daily w ++ [r]) w)).
Proof.
  split_and!.
  - intros. by apply never_deletes_same.
  - intros b w Hb. split_and!; [done..|]. unfold archive. cbn [minio set_minio].
    destruct (decide (b = "weather-raw")) as [->|Hne].
    + rewrite Hb. cbn. set_solver.
    + by rewrite lookup_insert_ne.
  - intros b k v objects w Hb. split_and!; [done..|]. unfold archive. cbn [minio set_minio].
    destruct (decide (b = "weather-raw")) as [->|Hne].
    + rewrite Hb, lookup_insert_eq. cbn. rewrite dom_insert. set_solver.
    + by rewrite lookup_insert_ne.
  - intros r w. split_and!; [by apply prefix_app_r|done..].
  - intros r w. split_and!; [done|by apply prefix_app_r|done].
Qed.

(** X12: a run of the flow deletes nothing: whatever happens in it, the
    rows that were in the two tables are still there, in order, before any
    new ones, and every key of the archive still has an object. *)
Theorem weather_etl_flow_never_deletes w r w' :
  weather_etl_flow w = (r, w') → never_deletes w w'.
Proof.
  destruct never_deletes_flow_rules as (Hemit & Hmake & Hput & Hhourly & Hdaily).
  intros Hrun.
  eapply (preserves_weather_etl_flow never_deletes (λ _, True)); try done;
    first [apply never_deletes_refl | apply never_deletes_trans
          | intros; by apply never_deletes_same].
Qed.

End PipelineMore.

Section OrchestratorMore.
Context {num : Type} `{!PyNumber num}.
Local Abbreviation World := (@World num).
Local Abbreviation M := (@M num).
Local Abbreviation event := (@event num).
Local Abbreviation Payload := (@Payload num).
Local Abbreviation DailySummary := (@DailySummary num).
Local Abbreviation HourlyRecord := (@HourlyRecord num).
Implicit Types w : World.







Local Tactic Notation "keeps" uconstr(lem) :=
  intros; eapply (lem (kept _) (λ _, True)); try done; apply kept_trans.











End OrchestratorMore.

(** * The properties on concrete runs *)

Lemma clock_ok_noon : clock_ok noon.
Proof. unfold clock_ok, valid_datetime, valid_date. cbn. repeat split; (reflexivity || lia). Defined.

Lemma well_formed_sample_hourly : well_formed_hourly sample_hourly.
Proof.
  unfold well_formed_hourly. split_and!; [|reflexivity..].
  repeat constructor; eexists; reflexivity.
Defined.

(** The hourly transformation of the sample payload, on 3 November:
    the two entries of 4 November. *)
Lemma transform_hourly_data_sample :
  transform_hourly_data sample_payload quiet_world
  = (Ok sample_rows, logged [Print (HourlyDataFor "Samara" 2)] quiet_world)
  ∧ Forall (λ r, hr_date r = Date 2025 11 4 ∧ hr_city r = "Samara") sample_rows.
Proof.
  destruct (transform_hourly_data_keeps_tomorrow sample_payload quiet_world (Date 2025 11 4))
    as (Hrun & _ & Hall).
  - exact well_formed_sample_hourly.
  - reflexivity.
  - split; [exact Hrun|exact Hall].
Defined.

(** The daily transformation on 3 November: a summary dated 4 November
    for the sample payload, an error for a forecast that stops on the 3rd. *)
Lemma transform_daily_data_sample :
  (∃ s, transform_daily_data sample_payload quiet_world = (Ok s, tick quiet_world)
        ∧ ds_date s = Date 2025 11 4 ∧ ds_city s = "Samara")
  ∧ transform_daily_data stale_payload quiet_world
    = (Raise ValueError,
       logged [Print (NoDataForTomorrowIn "Samara" ValueError)] (tick quiet_world)).
Proof.
  split.
  - apply (proj2 (transform_daily_data_tomorrow sample_payload quiet_world (Date 2025 11 4)
                    clock_ok_noon eq_refl)
             1 (-6 # 10) (47 # 10) (Num (14 # 10)));
      reflexivity.
  - apply (proj1 (transform_daily_data_tomorrow stale_payload quiet_world (Date 2025 11 4)
                    clock_ok_noon eq_refl)).
    intros Hin%list_elem_of_In. cbn in Hin. intuition discriminate.
Defined.

(** A payload whose daily [time] array contains tomorrow's date string,
    and on which the daily transformation raises. *)
Lemma transform_daily_data_null_temperature :
  plus_one_day (date_of (clock quiet_world)) = Ok (Date 2025 11 4)
  ∧ strftime_Y_m_d (Date 2025 11 4) = "2025-11-04"
  ∧ "2025-11-04" ∈ d_time (daily (forecast gap_payload))
  ∧ transform_daily_data gap_payload quiet_world = (Raise TypeError, quiet_world)
  ∧ ¬ ∃ s w', transform_daily_data gap_payload quiet_world = (Ok s, w').
Proof.
  split_and!; [reflexivity..| |reflexivity|].
  - apply list_elem_of_In. cbn. tauto.
  - intros (s & w' & Hrun). discriminate Hrun.
Defined.

Lemma temp_avg_sample :
  ∃ tm k a b,
    plus_one_day (date_of (clock quiet_world)) = Ok tm
    ∧ list_index (strftime_Y_m_d tm) (d_time (daily (forecast sample_payload))) = Ok k
    ∧ temperature_2m_min (daily (forecast sample_payload)) !! k = Some (Num a)
    ∧ temperature_2m_max (daily (forecast sample_payload)) !! k = Some (Num b)
    ∧ temp_min sample_summary = Num a
    ∧ temp_max sample_summary = Num b
    ∧ temp_avg sample_summary = num_round1 (num_half (num_add a b)).
Proof.
  apply (temp_avg_is_rounded_midpoint sample_payload quiet_world sample_summary quiet_world).
  reflexivity.
Defined.

Lemma wind_max_sample : wind_max sample_summary = 0%Z.
Proof.
  apply (wind_max_is_zero sample_payload quiet_world sample_summary quiet_world).
  reflexivity.
Defined.

(** Loading the two sample rows: both inserted; and with a store that
    refuses the second insert, the first row stays. *)
Lemma load_hourly_data_to_clickhouse_sample :
  (∃ w', load_hourly_data_to_clickhouse sample_rows quiet_world = (Ok tt, w')
         ∧ weather_hourly w' = sample_rows
         ∧ trace w' = (InsertHourly <$> sample_rows) ++ [Print (LoadedHourlyRecords 2)])
  ∧ (∃ w', load_hourly_data_to_clickhouse sample_rows refusing_world
           = (Raise (ExternalError "ServerException"), w')
           ∧ weather_hourly w' = take 1 sample_rows
           ∧ trace w' = InsertHourly <$> sample_rows).
Proof.
  split.
  - apply (proj1 (proj2 (load_hourly_data_to_clickhouse_rows sample_rows quiet_world))).
    + discriminate.
    + unfold accepts. cbn. constructor.
  - apply (proj2 (proj2 (load_hourly_data_to_clickhouse_rows sample_rows refusing_world))
             1 (ExternalError "ServerException")).
    + cbn. lia.
    + unfold accepts. cbn. repeat constructor.
    + reflexivity.
Defined.

Example load_hourly_data_to_clickhouse_nothing :
  load_hourly_data_to_clickhouse [] quiet_world
  = (Ok tt, logged [Print NoHourlyDataToLoad] quiet_world).
Proof. reflexivity. Qed.

(** The weather API fails the first city four times: the flow goes on to
    the second city and reports one city out of two. *)
Example weather_etl_flow_outage :
  ∃ w', weather_etl_flow outage_world = (Ok tt, w')
        ∧ last (trace w') = Some (Print DataStored)
        ∧ Print (PipelineCompleted 1 2) ∈ trace w'
        ∧ Print (ErrorProcessing "Moscow" (HTTPError 500)) ∈ trace w'
        ∧ ds_city <$> weather_daily w' = ["Samara"].
Proof.
  eexists. split; [vm_compute; reflexivity|].
  split_and!; [reflexivity| | |reflexivity]; apply list_elem_of_In; cbn; tauto.
Qed.

Example weather_etl_flow_sunny :
  ∃ w', weather_etl_flow sunny_world = (Ok tt, w')
        ∧ Print (PipelineCompleted 2 2) ∈ trace w'
        ∧ ds_city <$> weather_daily w' = ["Moscow"; "Samara"]
        ∧ length (weather_hourly w') = 4
        ∧ dom (archive w') = {[ "Moscow_20251103_120007.json"; "Samara_20251103_120007.json" ]}.
Proof.
  eexists. split; [vm_compute; reflexivity|].
  split_and!; [|reflexivity..| ]; [apply list_elem_of_In; cbn; tauto|].
  vm_compute. reflexivity.
Qed.

(** HTTP 500 on all four attempts for one city. *)
Lemma process_city_outage :
  process_city "Moscow" {| latitude := 557558 # 10000; longitude := 376173 # 10000 |}
    outage_world
  = (Ok false,
     logged
       ([Print (Processing "Moscow")]
        ++ (failed_attempt "Moscow" (557558 # 10000) (376173 # 10000) (HTTPError 500)
            ++ [Sleep 10]
            ++ failed_attempt "Moscow" (557558 # 10000) (376173 # 10000) (HTTPError 500)
            ++ [Sleep 10]
            ++ failed_attempt "Moscow" (557558 # 10000) (376173 # 10000) (HTTPError 500)
            ++ [Sleep 10]
            ++ failed_attempt "Moscow" (557558 # 10000) (376173 # 10000) (HTTPError 500))
        ++ [Print (ErrorProcessing "Moscow" (HTTPError 500))])
       (set_weather_api [Reply 200 (Some sample_forecast)] outage_world)).
Proof.
  apply (proj2 (fetch_weather_data_attempts "Moscow"
                  {| latitude := 557558 # 10000; longitude := 376173 # 10000 |} outage_world)
           (HTTPError 500) (HTTPError 500) (HTTPError 500) (HTTPError 500));
    reflexivity.
Defined.

(** HTTP 500 on three attempts, and the fetch returns: there is a fourth
    attempt. *)
Lemma fetch_weather_data_fourth_attempt :
  take 3 (weather_api flaky_world) = [Reply 500 None; Reply 500 None; Reply 500 None]
  ∧ ∃ data w',
      fetch_weather_data "Moscow" (557558 # 10000) (376173 # 10000) flaky_world = (Ok data, w')
      ∧ weather_requests (trace w') = 4
      ∧ ¬ weather_requests (trace w') ≤ 3.
Proof.
  split; [reflexivity|]. eexists _, _. split; [vm_compute; reflexivity|].
  split; [reflexivity|]. vm_compute. lia.
Defined.

(** Credential set, nobody to notify: no message is sent and no tally
    written. *)
Lemma send_telegram_notifications_lonely :
  ∃ lines,
    send_telegram_notifications sample_summary lonely_world
    = (Ok tt, logged [TelegramGetUpdates "123:abc"; Print (FoundUsers 0); Print NoUsersFound]
                (set_telegram_getUpdates [] lonely_world))
    ∧ trace (logged [TelegramGetUpdates "123:abc"; Print (FoundUsers 0)]
               (set_telegram_getUpdates [] lonely_world))
      = trace lonely_world ++ TelegramGetUpdates "123:abc" :: (Print <$> lines)
    ∧ ∀ successful failed, NotificationsSent successful failed ∉ lines.
Proof.
  apply (proj2 (send_telegram_notifications_no_subscribers sample_summary lonely_world)
           "123:abc"
           (logged [TelegramGetUpdates "123:abc"; Print (FoundUsers 0)]
              (set_telegram_getUpdates [] lonely_world))).
  - reflexivity.
  - discriminate.
  - reflexivity.
Defined.

(** With zero resolved subscribers the dispatcher has issued a network
    call, and has reported no tally. *)
Lemma send_telegram_notifications_lonely_calls :
  get_chat_ids "123:abc" lonely_world
  = (Ok [], logged [TelegramGetUpdates "123:abc"; Print (FoundUsers 0)]
              (set_telegram_getUpdates [] lonely_world))
  ∧ ∃ w',
      send_telegram_notifications sample_summary lonely_world = (Ok tt, w')
      ∧ trace w' = [TelegramGetUpdates "123:abc"; Print (FoundUsers 0); Print NoUsersFound]
      ∧ ¬ Forall (λ ev, is_network_call ev = false) (trace w')
      ∧ Print (NotificationsSent 0 0) ∉ trace w'.
Proof.
  split; [reflexivity|]. eexists. split; [vm_compute; reflexivity|].
  split_and!; [reflexivity| |].
  - intros Hall. apply Forall_cons in Hall as [Hcall _]. discriminate Hcall.
  - intros Hin%list_elem_of_In. cbn in Hin. intuition discriminate.
Defined.

Example send_telegram_notifications_no_token :
  send_telegram_notifications sample_summary quiet_world
  = (Ok tt, logged [Print BotTokenNotConfigured] quiet_world).
Proof. reflexivity. Qed.



Lemma update_ok_some_updates : Forall update_ok (updates_result some_updates).
Proof. repeat constructor; intros m [= <-]; eexists; reflexivity. Defined.

(** Four updates, three with a message, two of them from one chat: two
    subscribers. *)
Lemma get_chat_ids_sunny :
  ∃ ids w',
    get_chat_ids "123:abc" sunny_world = (Ok ids, w')
    ∧ NoDup ids
    ∧ ∀ x, x ∈ ids ↔ ∃ u m id, u ∈ updates_result some_updates ∧ message u = Some m
                               ∧ chat_id m = Some id ∧ x = pretty id.
Proof.
  apply (proj2 (proj2 (get_chat_ids_never_raises "123:abc" sunny_world))
           200 some_updates [Reply 200 (Some some_updates)]).
  - reflexivity.
  - lia.
  - reflexivity.
  - exact update_ok_some_updates.
Defined.

Example get_chat_ids_sunny_ids :
  (get_chat_ids "123:abc" sunny_world).1 = Ok ["-7"; "42"].
Proof. vm_compute. reflexivity. Qed.

Example get_chat_ids_server_error :
  (get_chat_ids "123:abc" (set_telegram_getUpdates [Reply 502 None] lonely_world)).1 = Ok [].
Proof. reflexivity. Qed.

(** ** More runs *)

(** The fetch of the flaky run has touched the weather API, the clock and
    the trace only. *)
Lemma fetch_weather_data_frame_flaky :
  beside_weather_api
    (logged (retried "Moscow" (557558 # 10000) (376173 # 10000)
               [HTTPError 500; HTTPError 500; HTTPError 500]
             ++ [Print (FetchingDataFor "Moscow");
                 WeatherGet (557558 # 10000) (376173 # 10000)])
       (set_weather_api [] flaky_world))
  = beside_weather_api flaky_world
  ∧ emits fetch_event flaky_world
      (logged (retried "Moscow" (557558 # 10000) (376173 # 10000)
                 [HTTPError 500; HTTPError 500; HTTPError 500]
               ++ [Print (FetchingDataFor "Moscow");
                   WeatherGet (557558 # 10000) (376173 # 10000)])
         (set_weather_api [] flaky_world)).
Proof.
  apply (fetch_weather_data_frame "Moscow" (557558 # 10000) (376173 # 10000) flaky_world
           (Ok {| forecast := sample_forecast; city := "Moscow"; fetched_at := noon |})).
  reflexivity.
Defined.

(** Three answers 500, then 200: four requests, three delays. *)
Lemma fetch_weather_data_flaky :
  fetch_weather_data "Moscow" (557558 # 10000) (376173 # 10000) flaky_world
  = (Ok {| forecast := sample_forecast; city := "Moscow"; fetched_at := noon |},
     logged (retried "Moscow" (557558 # 10000) (376173 # 10000)
               [HTTPError 500; HTTPError 500; HTTPError 500]
             ++ [Print (FetchingDataFor "Moscow");
                 WeatherGet (557558 # 10000) (376173 # 10000)])
       (set_weather_api [] (tick flaky_world)))
  ∧ weather_requests (retried (num:=Q) "Moscow" (557558 # 10000) (376173 # 10000)
                        [HTTPError 500; HTTPError 500; HTTPError 500]
                      ++ [Print (FetchingDataFor "Moscow");
                          WeatherGet (557558 # 10000) (376173 # 10000)])
    = 4.
Proof.
  apply (fetch_weather_data_first_success "Moscow" (557558 # 10000) (376173 # 10000)
           [HTTPError 500; HTTPError 500; HTTPError 500] 200 sample_forecast []
           flaky_world).
  - cbn. lia.
  - intros [|[|[|i]]] e; cbn; intros [= <-]; reflexivity.
  - reflexivity.
  - lia.
Defined.



(** On 4 November the sample series has nothing for the 5th. *)
Lemma transform_hourly_data_next_day :
  transform_hourly_data sample_payload next_day_world
  = (Ok [], logged [Print (HourlyDataFor "Samara" 0)] (tick next_day_world)).
Proof.
  apply (transform_hourly_data_nothing_for_tomorrow sample_payload next_day_world
           (Date 2025 11 5)).
  - reflexivity.
  - repeat constructor; eexists; (split; [reflexivity|discriminate]).
Defined.

(** The entry of 01:00 on the 4th has no precipitation value. *)
Lemma transform_hourly_data_short :
  transform_hourly_data short_payload quiet_world = (Raise IndexError, tick quiet_world).
Proof.
  apply (transform_hourly_data_missing_value short_payload quiet_world (Date 2025 11 4)
           3 "2025-11-04T01:00" (DateTime (Date 2025 11 4) 1 0 0 0)).
  - reflexivity.
  - repeat constructor; eexists; reflexivity.
  - reflexivity.
  - reflexivity.
  - reflexivity.
  - right. left. reflexivity.
Defined.

(** A null minimum is a [TypeError], not logged; a missing precipitation
    sum is an [IndexError], logged. *)
Lemma transform_daily_data_bad_series_sample :
  transform_daily_data gap_payload quiet_world = (Raise TypeError, tick quiet_world)
  ∧ transform_daily_data short_daily_payload quiet_world
    = (Raise IndexError,
       logged [Print (NoDataForTomorrowIn "Samara" IndexError)] (tick quiet_world)).
Proof.
  split.
  - destruct (transform_daily_data_bad_series gap_payload quiet_world (Date 2025 11 4) 1
                clock_ok_noon eq_refl eq_refl) as (_ & Hnull & _).
    apply (Hnull Null (Num (47 # 10))); [reflexivity..|]. left. reflexivity.
  - destruct (transform_daily_data_bad_series short_daily_payload quiet_world
                (Date 2025 11 4) 1 clock_ok_noon eq_refl eq_refl) as (_ & _ & Hshort).
    apply (Hshort (-6 # 10) (47 # 10)); reflexivity.
Defined.

(** Both transformations of the sample payload at noon. *)
Lemma transforms_same_date_sample :
  Forall (λ r, hr_date r = ds_date sample_summary) sample_rows.
Proof.
  apply (transforms_same_date sample_payload quiet_world sample_rows
           (logged [Print (HourlyDataFor "Samara" 2)] quiet_world)
           sample_summary
           (logged [Print (HourlyDataFor "Samara" 2)] quiet_world)).
  - reflexivity.
  - reflexivity.
  - exact clock_ok_noon.
  - reflexivity.
Defined.

(** Two subscribers, the first message delivered, the second answered
    403. *)
Lemma send_telegram_notifications_sunny :
  1 ≤ 2
  ∧ send_telegram_notifications sample_summary sunny_world
    = (Ok tt,
       logged ([TelegramSendMessage "123:abc" "-7" sample_summary;
                TelegramSendMessage "123:abc" "42" sample_summary]
               ++ [Print (NotificationsSent 1 1)])
         (set_telegram_sendMessage [Reply 200 None; NoReply (ExternalError "Timeout")]
            resolved_world)).
Proof.
  apply (send_telegram_notifications_tally sample_summary sunny_world "123:abc"
           ["-7"; "42"] resolved_world).
  - reflexivity.
  - discriminate.
  - vm_compute. reflexivity.
  - discriminate.
Defined.

(** The hourly transformation of the sample payload has written one
    line. *)
Lemma transformations_are_pure_sample :
  beside_clock (logged [Print (HourlyDataFor "Samara" 2)] quiet_world)
  = beside_clock quiet_world
  ∧ emits is_print quiet_world (logged [Print (HourlyDataFor "Samara" 2)] quiet_world).
Proof.
  apply (proj1 (transformations_are_pure sample_payload quiet_world) (Ok sample_rows)).
  reflexivity.
Defined.

(** A second run, on stores that hold the data of a first one. *)
Lemma weather_etl_flow_never_deletes_second_run :
  never_deletes second_run_world (weather_etl_flow second_run_world).2.
Proof.
  apply (weather_etl_flow_never_deletes second_run_world (Ok tt)).
  vm_compute. reflexivity.
Defined.

(** * The script that prepares the analytical store: properties *)

Section CreateTablesProperties.
Import CreateTables.

Lemma insert_if_absent (tbls : gmap (string * string) table_def) key def :
  match tbls !! key with Some _ => tbls | None => <[key := def]> tbls end
  = tbls ∪ {[ key := def ]}.
Proof.
  destruct (tbls !! key) as [old|] eqn:Hkey.
  - apply map_eq. intros k. rewrite lookup_union.
    destruct (decide (k = key)) as [->|Hne].
    + by rewrite Hkey, lookup_singleton_eq.
    + rewrite lookup_singleton_ne by done. by destruct (tbls !! k).
  - by apply insert_union_singleton_r.
Qed.

Lemma accepts_cons_Some n e (rest : list (option exn)) : ¬ accepts (S n) (Some e :: rest).
Proof. by intros [? _]%accepts_S. Qed.

Lemma execute_accepted st s :
  accepts 1 (faults s) →
  execute st s
  = match run_statement st (databases s) (tables s) with
    | Ok (dbs, tbls) =>
        (Ok tt, {| databases := dbs; tables := tbls; faults := drop 1 (faults s);
                   trace := trace s ++ [Executed st] |})
    | Raise e =>
        (Raise e, {| databases := databases s; tables := tables s;
                     faults := drop 1 (faults s); trace := trace s ++ [Executed st] |})
    end.
Proof.
  intros Hacc. unfold execute.
  destruct (faults s) as [|[e|] rest]; cbn [next_fault drop]; [done| |by rewrite drop_0].
  by apply accepts_cons_Some in Hacc.
Qed.

Lemma execute_refused st s e :
  faults s !! 0 = Some (Some e) →
  execute st s
  = (Raise e, {| databases := databases s; tables := tables s;
                 faults := drop 1 (faults s); trace := trace s ++ [Executed st] |}).
Proof.
  intros Hf. unfold execute. destruct (faults s) as [|f rest]; [done|].
  injection Hf as ->. cbn [next_fault drop]. by rewrite drop_0.
Qed.

Lemma declared_union (tbls : gmap (string * string) table_def) :
  tbls ∪ {[ ("weather", "weather_hourly") := weather_hourly_def ]}
       ∪ {[ ("weather", "weather_daily") := weather_daily_def ]}
  = tbls ∪ declared.
Proof.
  unfold declared. by rewrite <- (assoc_L (∪)), <- insert_union_singleton_l.
Qed.

Lemma weather_created (dbs : gset string) : "weather" ∈ ({[ "weather" ]} ∪ dbs : gset string).
Proof. apply elem_of_union_l. by apply elem_of_singleton. Qed.

(** X15: when the server accepts the three statements, the script
    returns, having printed its four lines; the database and the two tables
    are there, and whatever was on the server before is as it was: a table
    of one of the two names that was already there keeps its definition,
    and when the database and both tables were there nothing has changed. *)
Theorem create_tables_served s :
  accepts 3 (faults s) →
  ∃ s', create_tables s = (Ok tt, s')
        ∧ databases s' = {[ "weather" ]} ∪ databases s
        ∧ tables s' = tables s ∪ declared
        ∧ trace s' = trace s ++ script
        ∧ ("weather" ∈ databases s → dom declared ⊆ dom (tables s) →
           databases s' = databases s ∧ tables s' = tables s).
Proof.
  intros Hacc. eexists. split.
  - unfold create_tables, bind.
    rewrite execute_accepted by (apply (accepts_weaken 1 3); [lia|done]).
    cbn [run_statement]. unfold print at 1.
    apply accepts_next in Hacc as [_ Hacc].
    rewrite execute_accepted by (apply (accepts_weaken 1 2); [lia|done]).
    cbn [run_statement databases tables faults trace].
    rewrite (decide_True (P := _ ∈ _)) by apply weather_created.
    unfold print at 1. cbn [databases tables faults trace].
    apply accepts_next in Hacc as [_ Hacc].
    rewrite execute_accepted by done.
    cbn [run_statement databases tables faults trace].
    rewrite (decide_True (P := _ ∈ _)) by apply weather_created.
    unfold print. cbn [databases tables faults trace].
    rewrite !insert_if_absent, declared_union. reflexivity.
  - cbn [databases tables faults trace]. split_and!; [done..| |].
    + by rewrite <- !app_assoc.
    + intros Hdb Hdom. split; [by apply subseteq_union_1_L, singleton_subseteq_l|].
      apply map_eq. intros k. rewrite lookup_union.
      destruct (tables s !! k) as [def|] eqn:Hk; [by destruct (declared !! k)|].
      apply not_elem_of_dom in Hk.
      assert (k ∉ dom declared) as ->%not_elem_of_dom; [|done].
      intros Hin. apply Hk. revert Hin. by apply elem_of_subseteq.
Qed.

(** X16: when the server refuses one of the three statements, the script
    raises the error of that statement (it catches nothing): the statements
    after it are not sent, the lines after it are not printed, the closing
    line among them, and what the statements before it created stays on the
    server. *)
Theorem create_tables_refused s j e :
  j < 3 →
  accepts j (faults s) →
  faults s !! j = Some (Some e) →
  ∃ s', create_tables s = (Raise e, s')
        ∧ trace s' = trace s ++ take (2 * j + 1) script
        ∧ databases s' = (if j is 0 then databases s else {[ "weather" ]} ∪ databases s)
        ∧ tables s' = tables s ∪ declared_by j.
Proof.
  intros Hj Hacc Hrefused.
  destruct (refused_at j _ e Hacc Hrefused) as [rest Hfaults].
  unfold create_tables, bind.
  destruct j as [|j].
  { rewrite (execute_refused _ _ e) by done. eexists. split; [reflexivity|].
    cbn [databases tables trace declared_by]. by rewrite map_union_empty. }
  rewrite execute_accepted by (apply (accepts_weaken 1 (S j)); [lia|done]).
  cbn [run_statement]. unfold print at 1. cbn [databases tables faults trace].
  rewrite Hfaults. cbn [replicate app drop]. rewrite drop_0.
  destruct j as [|j].
  { rewrite (execute_refused _ _ e) by done. eexists. split; [reflexivity|].
    cbn [databases tables trace declared_by].
    by rewrite map_union_empty, <- !app_assoc. }
  rewrite execute_accepted by (unfold accepts; cbn; by repeat constructor).
  cbn [run_statement databases tables faults trace].
  rewrite (decide_True (P := _ ∈ _)) by apply weather_created.
  unfold print at 1. cbn [databases tables faults trace replicate app drop].
  rewrite drop_0.
  destruct j as [|j]; [|lia].
  rewrite (execute_refused _ _ e) by done. eexists. split; [reflexivity|].
  cbn [databases tables trace declared_by].
  by rewrite insert_if_absent, <- !app_assoc.
Qed.

End CreateTablesProperties.

(** On a server that has the database and an earlier daily table. *)
Lemma create_tables_old_server :
  ∃ s', CreateTables.create_tables CreateTables.old_server = (Ok tt, s')
        ∧ CreateTables.databases s'
          = {[ "weather" ]} ∪ CreateTables.databases CreateTables.old_server
        ∧ CreateTables.tables s'
          = CreateTables.tables CreateTables.old_server ∪ CreateTables.declared
        ∧ CreateTables.trace s'
          = CreateTables.trace CreateTables.old_server ++ CreateTables.script
        ∧ ("weather" ∈ CreateTables.databases CreateTables.old_server →
           dom CreateTables.declared ⊆ dom (CreateTables.tables CreateTables.old_server) →
           CreateTables.databases s' = CreateTables.databases CreateTables.old_server
           ∧ CreateTables.tables s' = CreateTables.tables CreateTables.old_server).
Proof.
  apply (create_tables_served CreateTables.old_server).
  unfold accepts. cbn. constructor.
Defined.

(** The earlier daily table is still what it was, without the columns
    the loader fills. *)
Example create_tables_old_server_daily :
  CreateTables.tables (CreateTables.create_tables CreateTables.old_server).2
    !! ("weather", "weather_daily")
  = Some CreateTables.old_daily_def
  ∧ CreateTables.old_daily_def ≠ CreateTables.weather_daily_def.
Proof. split; [vm_compute; reflexivity|discriminate]. Qed.

(** The server refuses the third statement: the database and the hourly
    table stay, the daily table is not there. *)
Lemma create_tables_busy_server :
  ∃ s', CreateTables.create_tables CreateTables.busy_server
        = (Raise (ExternalError "TOO_MANY_PARTS"), s')
        ∧ CreateTables.trace s'
          = CreateTables.trace CreateTables.busy_server ++ take 5 CreateTables.script
        ∧ CreateTables.databases s'
          = {[ "weather" ]} ∪ CreateTables.databases CreateTables.busy_server
        ∧ CreateTables.tables s'
          = CreateTables.tables CreateTables.busy_server ∪ CreateTables.declared_by 2.
Proof.
  apply (create_tables_refused CreateTables.busy_server 2 (ExternalError "TOO_MANY_PARTS")).
  - lia.
  - unfold accepts. cbn. repeat constructor.
  - reflexivity.
Defined.
